(** * The search orchestration of async-paper-retriever, embedded in Rocq

    A shallow embedding of [backend/main.py] (class [AsyncPaperSearch]),
    [backend/utils/rerank.py] ([BGEReranker.rerank]) and the data model of
    [backend/utils/models.py].

    Conventions of the embedding:
    - Python [str] is a Rocq [string]: the UTF-8 bytes of the text.  The
      patterns the code searches for ([<em>], [<json>], the percent sign,
      the new line) are ASCII, and a UTF-8 byte below 128 never lies inside
      a multi-byte character, so that matching on bytes and matching on
      code points agree.
    - Python [float] scores are rationals ([Q]): every finite double is a
      rational and comparing doubles is comparing those rationals.  NaN is
      outside the model.
    - An exception is the [Raise] outcome of the error monad [exc];
      [try: ... except Exception] is a match on the outcome.
    - The collaborators (search engine, embedding endpoint, rerank endpoint,
      LLM chat endpoint, cache, query expansion) and the library functions
      the code calls ([urllib.parse.unquote], [json.loads]) are functions
      held by the service object and by the module environment; a theorem
      quantifies over all of them.  Within one request a collaborator
      answers the same call the same way. *)

From Stdlib Require Import ZArith QArith String Ascii List Bool Lia.
From Stdlib Require Import Sorted Permutation.
From stdpp Require Import base list gmap sets strings.

Open Scope string_scope.
#[local] Set Warnings "-register-all".

(** ** Exceptions *)

Inductive exc (A : Type) : Type :=
| Ok (a : A)
| Raise (msg : string).
Arguments Ok {A} a.
Arguments Raise {A} msg.

Definition exc_bind {A B : Type} (m : exc A) (k : A -> exc B) : exc B :=
  match m with
  | Ok a => k a
  | Raise msg => Raise msg
  end.

Notation "x <- m ;;; k" := (exc_bind m (fun x => k))
  (at level 100, m at next level, right associativity).

(** [try: body except Exception as e: handler(str(e))] *)
Definition try_except {A : Type} (body : exc A) (handler : string -> A) : A :=
  match body with
  | Ok a => a
  | Raise msg => handler msg
  end.

(** ** Strings *)

Definition dquote : string := String "034"%char EmptyString.
Definition newline : string := String "010"%char EmptyString.

(** [s.startswith(p)], returning what follows the prefix. *)
Fixpoint strip_prefix (p s : string) : option string :=
  match p with
  | EmptyString => Some s
  | String a p' =>
      match s with
      | EmptyString => None
      | String b s' => if Ascii.eqb a b then strip_prefix p' s' else None
      end
  end.

(** The first occurrence of [p] in [s]: the text before it and after it. *)
Fixpoint find_sub (p s : string) : option (string * string) :=
  match strip_prefix p s with
  | Some rest => Some (EmptyString, rest)
  | None =>
      match s with
      | EmptyString => None
      | String c s' =>
          match find_sub p s' with
          | Some (before, after) => Some (String c before, after)
          | None => None
          end
      end
  end.

(** [p in s] on strings. *)
Definition contains (p s : string) : bool :=
  match find_sub p s with
  | Some _ => true
  | None => false
  end.

(** [str.lower()] on the ASCII letters; the other bytes are kept (Python
    also lowers cased letters outside ASCII). *)
Definition lower_ascii (c : ascii) : ascii :=
  let n := nat_of_ascii c in
  if (65 <=? n)%nat && (n <=? 90)%nat then ascii_of_nat (n + 32) else c.

Fixpoint lower (s : string) : string :=
  match s with
  | EmptyString => EmptyString
  | String c s' => String (lower_ascii c) (lower s')
  end.

(** [sep.join(l)] *)
Fixpoint join (sep : string) (l : list string) : string :=
  match l with
  | [] => EmptyString
  | [x] => x
  | x :: l' => x ++ sep ++ join sep l'
  end.

(** The characters [\s] and [str.strip()] take for blanks, in ASCII: tab,
    line feed, vertical tab, form feed, carriage return, the separators
    28 to 31 and the space. *)
Definition is_space (c : ascii) : bool :=
  let n := nat_of_ascii c in
  ((9 <=? n)%nat && (n <=? 13)%nat) || ((28 <=? n)%nat && (n <=? 32)%nat).

Fixpoint lstrip (s : string) : string :=
  match s with
  | EmptyString => EmptyString
  | String c s' => if is_space c then lstrip s' else s
  end.

Fixpoint rstrip (s : string) : string :=
  match s with
  | EmptyString => EmptyString
  | String c s' =>
      match rstrip s' with
      | EmptyString => if is_space c then EmptyString else String c EmptyString
      | t => String c t
      end
  end.

Definition strip (s : string) : string := rstrip (lstrip s).

(** Python truth of a string: [not s] holds of the empty string only. *)
Definition str_truthy (s : string) : bool :=
  match s with
  | EmptyString => false
  | String _ _ => true
  end.

(** ** Data model ([utils/models.py]) *)

(** [SearchRequest].  pydantic gives [query] the type [str]; the model
    admits a null query as well ([None]), the input [search] guards against
    when it decodes the query. *)
Record SearchRequest : Type := {
  query : option string;
  page : Z;
  pageSize : Z;
  searchType : string;
  enableLlm : bool
}.

(** The constraints pydantic validates on a request built from the wire. *)
Definition valid_request (r : SearchRequest) : Prop :=
  (exists q, query r = Some q /\ (1 <= String.length q)%nat) /\
  (1 <= page r)%Z /\ (1 <= pageSize r <= 10000)%Z.

Record SearchResult : Type := {
  id : string;
  title : string;
  keywords : list string;
  abstract : string;
  score : Q;
  source : option string;
  matched_keywords : option (list string);
  relevance_reason : option string
}.

Record SearchResponse : Type := {
  total : Z;
  results : list SearchResult;
  resp_searchType : string;
  rewrittenTerms : option (list string);
  search_id : option string
}.

(** ** JSON values, as [json.loads] returns them *)

Inductive json : Type :=
| JNull
| JBool (b : bool)
| JNum (q : Q)
| JStr (s : string)
| JArr (items : list json)
| JObj (fields : list (string * json)).

(** Python truth of a decoded JSON value ([if v:]). *)
Definition truthy (v : json) : bool :=
  match v with
  | JNull => false
  | JBool b => b
  | JNum q => negb (Qeq_bool q 0)
  | JStr s => str_truthy s
  | JArr items => match items with [] => false | _ => true end
  | JObj fields => match fields with [] => false | _ => true end
  end.

Fixpoint assoc (k : string) (fields : list (string * json)) : option json :=
  match fields with
  | [] => None
  | (k', v) :: rest => if String.eqb k k' then Some v else assoc k rest
  end.

(** [d.get(key, default)]: defined on a dict only; any other value has no
    [get] (AttributeError).  A decoded object holds each key once. *)
Definition py_get (d : json) (key : string) (default : json) : exc json :=
  match d with
  | JObj fields =>
      match assoc key fields with
      | Some v => Ok v
      | None => Ok default
      end
  | _ => Raise "AttributeError: object has no attribute 'get'"
  end.

(** ** The engine's answer *)

(** One hit: [hit['_source']] with the four requested fields, [hit['_score']]
    and the optional [hit['highlight']] (field name to fragments).  [id],
    [title], [abstract] and [_score] are read with [hit[...]]: a hit without
    one of them makes the read raise, which the model counts as the engine
    call raising (in both cases the exception leaves the strategy before any
    response is built). *)
Record Hit : Type := {
  hit_id : string;
  hit_title : string;
  hit_keywords : option (list string);
  hit_abstract : string;
  hit_score : Q;
  hit_highlight : option (list (string * list string))
}.

Record EngineResponse : Type := {
  hits : list Hit;
  hits_total_value : Z
}.

(** ** Query descriptors *)

Inductive Clause : Type :=
| match_phrase_boost (field phrase : string) (boost : Z)
| match_phrase (field phrase : string)
| terms_id (ids : list string).

Record Knn : Type := {
  knn_vector : list Q;
  knn_k : Z
}.

Inductive Query : Type :=
| q_bool_should (should : list Clause) (minimum_should_match : Z)
| q_bool_knn (must : Knn) (must_not : list Clause)
| q_knn (knn : Knn)
| q_hybrid (queries : list Query).

Record SearchBody : Type := {
  body_from : option Z;
  body_size : Z;
  body_query : Query;
  body_source : list string;
  body_highlight : option (list string)
}.

(** ** Collaborators *)

(** What the module environment of [main.py] provides: the settings, the
    OpenAI key, the query expansion of [utils/query_expansion.py], the chat
    completion endpoint (from the user prompt to the content of the first
    choice) and the library functions [urllib.parse.unquote], [json.loads]
    ([None] is JSONDecodeError) and [float] on a string ([None] is
    ValueError). *)
Record Env : Type := {
  ENABLE_RERANK : bool;
  openai_api_key : string;
  unquote : string -> string;
  expand_query : string -> exc (list string);
  chat_completion : string -> exc string;
  json_loads : string -> option json;
  float_of_str : string -> option Q
}.

(** [BGEReranker]: the SageMaker endpoint, from the query and the passages
    to the decoded body of the answer. *)
Record BGEReranker : Type := {
  invoke_endpoint : string -> list string -> exc json
}.

(** [AsyncPaperSearch]: the four handles, each [None] until its [_init_*]
    succeeds.
    - the client: [search(index, body, params)], with the search pipeline
      of [params] when there is one;
    - the embedder: [get_embeddings(text)[0].tolist()];
    - the cache: [save_search_result(query, search_type, response,
      enable_llm)], which returns the new id or [None] and never raises. *)
Record AsyncPaperSearch : Type := {
  opensearch_client : option (SearchBody -> option string -> exc EngineResponse);
  embedder : option (string -> exc (list Q));
  reranker : option BGEReranker;
  cache : option (string -> string -> SearchResponse -> bool -> option string)
}.

(** ** Sorting: [l.sort(key=..., reverse=True)] *)

(** Python's sort is stable, also with [reverse=True]: the result is the
    one arrangement by descending key in which entries of equal key keep
    their order.  Inserting from the right, each entry in front of the first
    one whose key is not greater, builds that arrangement. *)
Section Sort.
Context {A : Type} (key : A -> Q).

Fixpoint insert_desc (x : A) (l : list A) : list A :=
  match l with
  | [] => [x]
  | y :: l' =>
      if Qle_bool (key y) (key x) then x :: y :: l' else y :: insert_desc x l'
  end.

Fixpoint sort_desc (l : list A) : list A :=
  match l with
  | [] => []
  | x :: l' => insert_desc x (sort_desc l')
  end.

(** [a] may stand before [b] in a list sorted by descending key. *)
Definition desc (a b : A) : Prop := (key b <= key a)%Q.
End Sort.

(** A sequence of scores that never increases. *)
Definition non_increasing (scores : list Q) : Prop :=
  StronglySorted (fun a b => (b <= a)%Q) scores.

(** ** [re.findall(r'<em>(.*?)</em>', text)] *)

(** From behind an opening [<em>]: the shortest run without a new line (the
    dot does not match it) that a closing [</em>] follows, and what follows
    the closing tag. *)
Fixpoint until_close_em (s : string) : option (string * string) :=
  match strip_prefix "</em>" s with
  | Some rest => Some (EmptyString, rest)
  | None =>
      match s with
      | EmptyString => None
      | String c s' =>
          if Ascii.eqb c "010"%char then None
          else match until_close_em s' with
               | Some (captured, rest) => Some (String c captured, rest)
               | None => None
               end
      end
  end.

(** The scan from left to right: a match is taken where it starts first and
    the scan goes on behind it; where none starts, one character on.  Every
    step consumes a character, so the length of the text is fuel enough
    ([findall_em_fuel_enough]). *)
Fixpoint findall_em_fuel (fuel : nat) (s : string) : list string :=
  match fuel with
  | O => []
  | S fuel' =>
      match s with
      | EmptyString => []
      | String _ s' =>
          match strip_prefix "<em>" s with
          | Some inner =>
              match until_close_em inner with
              | Some (captured, rest) => captured :: findall_em_fuel fuel' rest
              | None => findall_em_fuel fuel' s'
              end
          | None => findall_em_fuel fuel' s'
          end
      end
  end.

Definition findall_em (s : string) : list string :=
  findall_em_fuel (String.length s) s.

(** ** The methods of [AsyncPaperSearch] *)

(** [extract_matched_keywords]: [list(set(matched))].  The order in which a
    Python set is listed is not specified; [elements] fixes one. *)
Definition extract_matched_keywords (highlight : list (string * list string))
  : list string :=
  let matched :=
    flat_map (fun fh : string * list string => flat_map findall_em (snd fh))
             highlight in
  elements (list_to_set matched : gset string).

(** The first capture of the two patterns of [evaluate_relevance], both
    with [re.DOTALL]: [<json>(.*?)</json>], then the fenced block
    [```json\s*(.*?)\s*```]. *)
Definition first_json_tag (result : string) : option string :=
  match find_sub "<json>" result with
  | Some (_, inner) =>
      match find_sub "</json>" inner with
      | Some (captured, _) => Some captured
      | None => None
      end
  | None => None
  end.

Fixpoint until_fence (s : string) : option string :=
  match strip_prefix "```" (lstrip s) with
  | Some _ => Some EmptyString
  | None =>
      match s with
      | EmptyString => None
      | String c s' =>
          match until_fence s' with
          | Some captured => Some (String c captured)
          | None => None
          end
      end
  end.

Definition first_json_fence (result : string) : option string :=
  match find_sub "```json" result with
  | Some (_, inner) => until_fence (lstrip inner)
  | None => None
  end.

(** The loop over [json_patterns]: the first pattern that matches gives
    [matches[0].strip()]. *)
Definition find_json_str (result : string) : option string :=
  match first_json_tag result with
  | Some m => Some (strip m)
  | None =>
      match first_json_fence result with
      | Some m => Some (strip m)
      | None => None
      end
  end.

Definition relevance_prompt (query text : string) : string :=
  "你是一个医学文献筛选助手。我会提供一个医学topic和下列医学文献的摘要。你的任务是判断这篇文献是否与该疾病相关，并按照以下规则输出结果：

如果摘要主要讨论该疾病，返回 true，并给出理由（不超过15字）。
如果摘要侧面提到该疾病（例如作为背景、对比或次要内容），返回 true，并给出理由（不超过15字）。
如果摘要与该疾病完全无关，返回 false，并给出理由（不超过15字）。

医学topic：" ++ query ++ "
文献摘要：" ++ text ++ "

始终以 JSON 格式输出，并包裹在 <json></json> 标签中。
JSON 结构如下：{
  " ++ dquote ++ "is_relevant" ++ dquote ++ ": IF_RELEVANT,
  " ++ dquote ++ "reason" ++ dquote ++ ": REASON
}".

(** [evaluate_relevance].  The annotation promises [Tuple[bool, str]]; the
    two values come out of the LLM's JSON unchecked, so they are JSON
    values here. *)
Definition evaluate_relevance (E : Env) (query text : string) (enable_llm : bool)
  : json * json :=
  if negb enable_llm then (JBool true, JStr "未启用LLM评估")
  else if negb (str_truthy (openai_api_key E)) then (JBool true, JStr "未配置OpenAI API")
  else
    try_except
      (content <- chat_completion E (relevance_prompt query text) ;;;
       let result := strip content in
       match find_json_str result with
       | None => Ok (JBool true, JStr "JSON内容解析失败")
       | Some json_str =>
           if negb (str_truthy json_str) then Ok (JBool true, JStr "JSON内容解析失败")
           else
             match json_loads E json_str with
             | None => Ok (JBool true, JStr "JSON解析失败")
             | Some json_result =>
                 is_relevant <- py_get json_result "is_relevant" (JBool true) ;;;
                 reason <- py_get json_result "reason" (JStr "解析评估原因失败") ;;;
                 Ok (is_relevant, reason)
             end
       end)
      (fun e => (JBool true, JStr ("评估出错: " ++ e))).

(** The three phrase clauses of one term, with the boosts of the keyword and
    hybrid builders. *)
Definition boosted_clauses (keyword : string) : list Clause :=
  [ match_phrase_boost "title" keyword 5;
    match_phrase_boost "keywords" keyword 10;
    match_phrase_boost "abstract" keyword 2 ].

Definition plain_clauses (keyword : string) : list Clause :=
  [ match_phrase "title" keyword;
    match_phrase "keywords" keyword;
    match_phrase "abstract" keyword ].

Definition source_fields : list string := ["id"; "title"; "abstract"; "keywords"].
Definition highlight_fields : list string := ["title"; "abstract"; "keywords"].

Definition build_hybrid_search_query (query_terms : list string)
    (query_embedding : list Q) (page page_size : Z) : SearchBody :=
  let from_value := ((page - 1) * page_size)%Z in
  let should_queries := flat_map boosted_clauses query_terms in
  {| body_from := Some from_value;
     body_size := page_size;
     body_query :=
       q_hybrid [ q_bool_should should_queries 1;
                  q_knn {| knn_vector := query_embedding; knn_k := page_size |} ];
     body_source := source_fields;
     body_highlight := Some highlight_fields |}.

Definition build_vector_search_query (query_embedding : list Q)
    (query_terms : list string) (page page_size : Z) : SearchBody :=
  let from_value := ((page - 1) * page_size)%Z in
  let must_not_queries := flat_map plain_clauses query_terms in
  {| body_from := Some from_value;
     body_size := page_size;
     body_query :=
       q_bool_knn {| knn_vector := query_embedding; knn_k := page_size |}
                  must_not_queries;
     body_source := source_fields;
     body_highlight := None |}.

Definition build_keyword_search_query (query_terms : list string)
    (page page_size : Z) : SearchBody :=
  let from_value := ((page - 1) * page_size)%Z in
  let should_queries := flat_map boosted_clauses query_terms in
  {| body_from := Some from_value;
     body_size := page_size;
     body_query := q_bool_should should_queries 1;
     body_source := source_fields;
     body_highlight := Some highlight_fields |}.

(** [hit['_source'].get('keywords', [])] *)
Definition hit_keywords_or_empty (hit : Hit) : list string :=
  match hit_keywords hit with
  | Some kws => kws
  | None => []
  end.

(** [hit.get('highlight', {})] *)
Definition hit_highlight_or_empty (hit : Hit) : list (string * list string) :=
  match hit_highlight hit with
  | Some h => h
  | None => []
  end.

Definition find_matched_keywords (keywords : list string) (hit_source : Hit)
  : list string :=
  List.filter
    (fun keyword =>
       contains (lower keyword) (lower (hit_title hit_source))
       || contains (lower keyword)
                   (lower (join " " (hit_keywords_or_empty hit_source)))
       || contains (lower keyword) (lower (hit_abstract hit_source)))
    keywords.

(** *** [BGEReranker.rerank] ([utils/rerank.py]) *)

Record RerankItem : Type := {
  rr_text : string;
  rr_score : Q
}.

(** [for item in v]: a list gives its items, a dict its keys, a string its
    characters; nothing else can be iterated (TypeError). *)
Fixpoint chars (s : string) : list json :=
  match s with
  | EmptyString => []
  | String c s' => JStr (String c EmptyString) :: chars s'
  end.

Definition py_iter (v : json) : exc (list json) :=
  match v with
  | JArr items => Ok items
  | JObj fields => Ok (map (fun kv : string * json => JStr (fst kv)) fields)
  | JStr s => Ok (chars s)
  | _ => Raise "TypeError: object is not iterable"
  end.

(** [item['score']] *)
Definition py_item_score (item : json) : exc json :=
  match item with
  | JObj fields =>
      match assoc "score" fields with
      | Some v => Ok v
      | None => Raise "KeyError: 'score'"
      end
  | _ => Raise "TypeError: indices must be integers"
  end.

(** [float(v)] *)
Definition py_float (E : Env) (v : json) : exc Q :=
  match v with
  | JNum q => Ok q
  | JBool b => Ok (if b then 1%Q else 0%Q)
  | JStr s =>
      match float_of_str E s with
      | Some q => Ok q
      | None => Raise "ValueError: could not convert string to float"
      end
  | _ => Raise "TypeError: float() argument must be a string or a real number"
  end.

Fixpoint mapM {A B : Type} (f : A -> exc B) (l : list A) : exc (list B) :=
  match l with
  | [] => Ok []
  | x :: l' =>
      y <- f x ;;;
      ys <- mapM f l' ;;;
      Ok (y :: ys)
  end.

(** [zip(passages, scores)], each pair turned into
    [{"text": text, "score": float(score)}]. *)
Fixpoint zip_items (E : Env) (passages : list string) (scores : list json)
  : exc (list RerankItem) :=
  match passages, scores with
  | text :: passages', sc :: scores' =>
      q <- py_float E sc ;;;
      rest <- zip_items E passages' scores' ;;;
      Ok ({| rr_text := text; rr_score := q |} :: rest)
  | _, _ => Ok []
  end.

(** [rerank(query, passages)] with [top_k=None].  The items come back
    sorted by descending score, each with its text. *)
Definition rerank (E : Env) (self : BGEReranker) (query : string)
    (passages : list string) : list RerankItem :=
  match passages with
  | [] => []
  | _ =>
      try_except
        (response_body <- invoke_endpoint self query passages ;;;
         match response_body with
         | JObj fields =>
             match assoc "data" fields with
             | Some data =>
                 items <- py_iter data ;;;
                 scores <- mapM py_item_score items ;;;
                 results <- zip_items E passages scores ;;;
                 Ok (sort_desc rr_score results)
             | None => Ok []
             end
         | _ => Ok []
         end)
        (fun _ => [])
  end.

(** *** Results *)

Definition set_score (s : Q) (r : SearchResult) : SearchResult :=
  {| id := id r; title := title r; keywords := keywords r;
     abstract := abstract r; score := s; source := source r;
     matched_keywords := matched_keywords r;
     relevance_reason := relevance_reason r |}.

(** The hit of the keyword and hybrid strategies. *)
Definition lexical_result (src : string) (query_terms : list string) (hit : Hit)
  : SearchResult :=
  let matched := find_matched_keywords query_terms hit in
  let highlight_matched := extract_matched_keywords (hit_highlight_or_empty hit) in
  {| id := hit_id hit; title := hit_title hit;
     keywords := hit_keywords_or_empty hit;
     abstract := hit_abstract hit; score := hit_score hit;
     source := Some src;
     matched_keywords := Some (matched ++ highlight_matched)%list;
     relevance_reason := None |}.

(** What pydantic makes of [relevance_reason=reason], a field of type
    [Optional[str]]: a string or [None] pass, anything else is a
    ValidationError. *)
Definition validate_reason (reason : json) : exc (option string) :=
  match reason with
  | JStr s => Ok (Some s)
  | JNull => Ok None
  | _ => Raise "ValidationError: relevance_reason: Input should be a valid string"
  end.

(** The hit of the vector strategy and of supplementation. *)
Definition vector_result (hit : Hit) (reason : json) : exc SearchResult :=
  r <- validate_reason reason ;;;
  Ok {| id := hit_id hit; title := hit_title hit;
        keywords := hit_keywords_or_empty hit;
        abstract := hit_abstract hit; score := hit_score hit;
        source := Some "vector";
        matched_keywords := None;
        relevance_reason := r |}.

Definition eval_text (hit : Hit) : string :=
  "标题：" ++ hit_title hit ++ newline ++ "摘要：" ++ hit_abstract hit.

(** The double nearest to 0.1, the literal of the threshold. *)
Definition score_threshold : Q := 3602879701896397 # 36028797018963968.

(** [self.opensearch_client.search(...)] and [self.embedder.get_embeddings]:
    on a handle that is [None] the attribute access raises. *)
Definition client_search (self : AsyncPaperSearch) (body : SearchBody)
    (pipeline : option string) : exc EngineResponse :=
  match opensearch_client self with
  | Some search_fn => search_fn body pipeline
  | None => Raise "AttributeError: 'NoneType' object has no attribute 'search'"
  end.

Definition get_embeddings (self : AsyncPaperSearch) (text : string) : exc (list Q) :=
  match embedder self with
  | Some embed => embed text
  | None => Raise "AttributeError: 'NoneType' object has no attribute 'get_embeddings'"
  end.

(** The tail of each strategy: hand the response to the cache, and keep the
    id it returns when it is a non-empty string. *)
Definition save_to_cache (self : AsyncPaperSearch) (query : string)
    (request : SearchRequest) (search_response : SearchResponse) : SearchResponse :=
  match cache self with
  | Some save_search_result =>
      match save_search_result query (searchType request) search_response
                               (enableLlm request) with
      | Some sid =>
          if str_truthy sid then
            {| total := total search_response;
               results := results search_response;
               resp_searchType := resp_searchType search_response;
               rewrittenTerms := rewrittenTerms search_response;
               search_id := Some sid |}
          else search_response
      | None => search_response
      end
  | None => search_response
  end.

(** *** [_rerank_results] *)

(** [for i, rerank_result in enumerate(rerank_results)]: the score of the
    [i]-th item returned goes to the [i]-th result, while there is one. *)
Fixpoint overwrite_scores (i : nat) (rerank_results : list RerankItem)
    (results : list SearchResult) : list SearchResult :=
  match rerank_results with
  | [] => results
  | rerank_result :: rest =>
      overwrite_scores (S i) rest
        (if (i <? length results)%nat
         then alter (set_score (rr_score rerank_result)) i results
         else results)
  end.

Definition _rerank_results (E : Env) (rr : BGEReranker) (query : string)
    (results : list SearchResult) : list SearchResult :=
  let titles := map title results in
  let rerank_results := rerank E rr query titles in
  match rerank_results with
  | [] => results
  | _ => sort_desc score (overwrite_scores 0 rerank_results results)
  end.

(** [if settings.ENABLE_RERANK and self.reranker and results:] *)
Definition maybe_rerank (E : Env) (self : AsyncPaperSearch) (query : string)
    (results : list SearchResult) : list SearchResult :=
  if ENABLE_RERANK E then
    match reranker self with
    | Some rr =>
        match results with
        | [] => results
        | _ :: _ => _rerank_results E rr query results
        end
    | None => results
    end
  else results.

(** *** The three strategies *)

Definition _hybrid_search (E : Env) (self : AsyncPaperSearch) (query : string)
    (query_terms : list string) (request : SearchRequest) : exc SearchResponse :=
  match embedder self with
  | None => Raise "嵌入服务不可用，无法执行混合搜索"
  | Some _ =>
      query_embedding <- get_embeddings self query ;;;
      let search_query :=
        build_hybrid_search_query query_terms query_embedding
                                  (page request) (pageSize request) in
      response <- client_search self search_query (Some "nlp-search-pipeline") ;;;
      let results := map (lexical_result "hybrid" query_terms) (hits response) in
      let results := maybe_rerank E self query results in
      let search_response :=
        {| total := hits_total_value response;
           results := results;
           resp_searchType := searchType request;
           rewrittenTerms := Some query_terms;
           search_id := None |} in
      Ok (save_to_cache self query request search_response)
  end.

(** The loop of [_vector_search] over the hits: every hit is evaluated, a
    hit judged relevant becomes a result. *)
Fixpoint vector_results (E : Env) (query : string) (enable_llm : bool)
    (hits : list Hit) : exc (list SearchResult) :=
  match hits with
  | [] => Ok []
  | hit :: rest =>
      let '(is_relevant, reason) :=
        evaluate_relevance E query (eval_text hit) enable_llm in
      if truthy is_relevant then
        result <- vector_result hit reason ;;;
        results <- vector_results E query enable_llm rest ;;;
        Ok (result :: results)
      else vector_results E query enable_llm rest
  end.

Definition _vector_search (E : Env) (self : AsyncPaperSearch) (query : string)
    (query_terms : list string) (request : SearchRequest) : exc SearchResponse :=
  match embedder self with
  | None => Raise "嵌入服务不可用，无法执行向量搜索"
  | Some _ =>
      query_embedding <- get_embeddings self query ;;;
      let search_query :=
        build_vector_search_query query_embedding query_terms
                                  (page request) (pageSize request) in
      response <- client_search self search_query None ;;;
      results <- vector_results E query (enableLlm request) (hits response) ;;;
      let search_response :=
        {| total := Z.of_nat (length results);
           results := results;
           resp_searchType := searchType request;
           rewrittenTerms := Some query_terms;
           search_id := None |} in
      Ok (save_to_cache self query request search_response)
  end.

(** The loop of [_supplement_with_vector_search] over the hits: a hit whose
    id is new and whose score reaches the threshold is evaluated, and
    becomes a result when judged relevant. *)
Fixpoint supplement_results (E : Env) (query : string) (enable_llm : bool)
    (seen_ids : gset string) (hits : list Hit) : exc (list SearchResult) :=
  match hits with
  | [] => Ok []
  | hit :: rest =>
      if bool_decide (hit_id hit ∉ seen_ids)
         && Qle_bool score_threshold (hit_score hit) then
        let '(is_relevant, reason) :=
          evaluate_relevance E query (eval_text hit) enable_llm in
        if truthy is_relevant then
          result <- vector_result hit reason ;;;
          results <- supplement_results E query enable_llm seen_ids rest ;;;
          Ok (result :: results)
        else supplement_results E query enable_llm seen_ids rest
      else supplement_results E query enable_llm seen_ids rest
  end.

(** The query of supplementation. *)
Definition supplement_query (query_embedding : list Q) (query_terms : list string)
    (seen_ids : gset string) (remaining_size : Z) : SearchBody :=
  let must_not_queries :=
    terms_id (elements seen_ids) :: flat_map plain_clauses query_terms in
  {| body_from := None;
     body_size := remaining_size;
     body_query :=
       q_bool_knn {| knn_vector := query_embedding; knn_k := remaining_size |}
                  must_not_queries;
     body_source := source_fields;
     body_highlight := None |}.

Definition _supplement_with_vector_search (E : Env) (self : AsyncPaperSearch)
    (query : string) (query_terms : list string) (results : list SearchResult)
    (seen_ids : gset string) (request : SearchRequest) : exc (list SearchResult) :=
  let remaining_size := (10000 - Z.of_nat (length results))%Z in
  let combined_query := join " " (query :: query_terms) in
  query_embedding <- get_embeddings self combined_query ;;;
  let vector_search_query :=
    supplement_query query_embedding query_terms seen_ids remaining_size in
  vector_response <- client_search self vector_search_query None ;;;
  vector_results <-
    supplement_results E query (enableLlm request) seen_ids (hits vector_response) ;;;
  Ok (sort_desc score (results ++ vector_results)%list).

(** [if len(results) < 10000 and self.embedder:] *)
Definition maybe_supplement (E : Env) (self : AsyncPaperSearch) (query : string)
    (query_terms : list string) (results : list SearchResult)
    (seen_ids : gset string) (request : SearchRequest) : exc (list SearchResult) :=
  if (Z.of_nat (length results) <? 10000)%Z then
    match embedder self with
    | Some _ =>
        _supplement_with_vector_search E self query query_terms results seen_ids
                                       request
    | None => Ok results
    end
  else Ok results.

Definition _keyword_search (E : Env) (self : AsyncPaperSearch) (query : string)
    (query_terms : list string) (request : SearchRequest) : exc SearchResponse :=
  let search_query :=
    build_keyword_search_query query_terms (page request) (pageSize request) in
  response <- client_search self search_query None ;;;
  let results := map (lexical_result "keyword" query_terms) (hits response) in
  let seen_ids : gset string := list_to_set (map hit_id (hits response)) in
  results <- maybe_supplement E self query query_terms results seen_ids request ;;;
  let results := maybe_rerank E self query results in
  let search_response :=
    {| total := Z.of_nat (length results);
       results := results;
       resp_searchType := searchType request;
       rewrittenTerms := Some query_terms;
       search_id := None |} in
  Ok (save_to_cache self query request search_response).

(** *** [search] *)

Definition empty_response (request : SearchRequest) : SearchResponse :=
  {| total := 0;
     results := [];
     resp_searchType := searchType request;
     rewrittenTerms := None;
     search_id := None |}.

(** [urllib.parse.unquote(request.query)]: a null query is no string to
    decode (TypeError). *)
Definition py_unquote (E : Env) (q : option string) : exc (option string) :=
  match q with
  | Some s => Ok (Some (unquote E s))
  | None => Raise "TypeError: argument of type 'NoneType' is not iterable"
  end.

(** The inner [try] of [search]: the decoded query, or the query as it came
    when decoding raises. *)
Definition decoded_query (E : Env) (request : SearchRequest) : option string :=
  try_except (py_unquote E (query request)) (fun _ => query request).

(** The body of the outer [try] of [search]. *)
Definition search_body (E : Env) (self : AsyncPaperSearch) (request : SearchRequest)
  : exc SearchResponse :=
  match opensearch_client self with
  | None => Raise "OpenSearch服务不可用，请检查配置"
  | Some _ =>
      match decoded_query E request with
      | None => Ok (empty_response request)
      | Some query =>
          if negb (str_truthy query) then Ok (empty_response request)
          else
            query_terms <- expand_query E query ;;;
            if String.eqb (searchType request) "hybrid" then
              _hybrid_search E self query query_terms request
            else if String.eqb (searchType request) "vector" then
              _vector_search E self query query_terms request
            else
              _keyword_search E self query query_terms request
      end
  end.

Definition search (E : Env) (self : AsyncPaperSearch) (request : SearchRequest)
  : SearchResponse :=
  try_except (search_body E self request) (fun _ => empty_response request).

(** ** Reading a descriptor *)

Definition should_clauses (q : Query) : list Clause :=
  match q with
  | q_bool_should should _ => should
  | _ => []
  end.

Definition min_should_match (q : Query) : option Z :=
  match q with
  | q_bool_should _ m => Some m
  | _ => None
  end.

(** ** Failures *)

(** The failures inside [search]: a handle that is missing, a collaborator
    that raises whenever it is called, and, most generally, any exception
    that leaves the body of the [try]. *)
Inductive internal_failure (E : Env) (self : AsyncPaperSearch)
    (request : SearchRequest) : Prop :=
| no_client :
    opensearch_client self = None -> internal_failure E self request
| no_embedder :
    embedder self = None ->
    searchType request = "vector" \/ searchType request = "hybrid" ->
    internal_failure E self request
| engine_raises :
    (forall body pipeline, exists msg, client_search self body pipeline = Raise msg) ->
    internal_failure E self request
| embedder_raises :
    (forall text, exists msg, get_embeddings self text = Raise msg) ->
    searchType request = "vector" \/ searchType request = "hybrid" ->
    internal_failure E self request
| expansion_raises :
    (forall q, exists msg, expand_query E q = Raise msg) ->
    internal_failure E self request
| body_raises msg :
    search_body E self request = Raise msg -> internal_failure E self request.

(** ** Reading a list of results *)

(** A result without its score: what reranking leaves alone. *)
Definition forget_score (r : SearchResult) : SearchResult := set_score 0 r.

(** The loop of [_rerank_results] goes down the two lists side by side. *)
Fixpoint zip_overwrite (rerank_results : list RerankItem)
    (results : list SearchResult) : list SearchResult :=
  match rerank_results, results with
  | item :: rest, r :: results' =>
      set_score (rr_score item) r :: zip_overwrite rest results'
  | _, _ => results
  end.


(** ** Reranking as the specification words it

    The contract of the specification for the rerank collaborator: the
    scores come back aligned, position by position, with the titles that
    went in.  [spec_rerank] is [rerank] without its final sort, and
    [spec_rerank_results] is [_rerank_results] over it; they are compared
    with the code below. *)
Definition spec_rerank (E : Env) (self : BGEReranker) (query : string)
    (passages : list string) : list RerankItem :=
  match passages with
  | [] => []
  | _ =>
      try_except
        (response_body <- invoke_endpoint self query passages ;;;
         match response_body with
         | JObj fields =>
             match assoc "data" fields with
             | Some data =>
                 items <- py_iter data ;;;
                 scores <- mapM py_item_score items ;;;
                 zip_items E passages scores
             | None => Ok []
             end
         | _ => Ok []
         end)
        (fun _ => [])
  end.

Definition spec_rerank_results (E : Env) (rr : BGEReranker) (query : string)
    (results : list SearchResult) : list SearchResult :=
  match spec_rerank E rr query (map title results) with
  | [] => results
  | rerank_results => sort_desc score (overwrite_scores 0 rerank_results results)
  end.

(** ** The verdict of the relevance filter on a hit *)

Definition judged_relevant (E : Env) (query : string) (enable_llm : bool)
    (hit : Hit) : bool :=
  truthy (fst (evaluate_relevance E query (eval_text hit) enable_llm)).

Definition hit_reason (E : Env) (query : string) (enable_llm : bool)
    (hit : Hit) : json :=
  snd (evaluate_relevance E query (eval_text hit) enable_llm).

(** The ids the keyword pass has seen: [seen_ids] of [_keyword_search]. *)
Definition keyword_seen_ids (response : EngineResponse) : gset string :=
  list_to_set (map hit_id (hits response)).

(** The candidates of supplementation that pass the threshold and the
    filter: the hits with a new id, a score of at least 0.1 and a verdict of
    relevant. *)
Definition supplement_keeps (E : Env) (query : string) (enable_llm : bool)
    (seen_ids : gset string) (hit : Hit) : bool :=
  bool_decide (hit_id hit ∉ seen_ids)
  && Qle_bool score_threshold (hit_score hit)
  && judged_relevant E query enable_llm hit.

(** A result that was built from a hit by the vector strategy or by
    supplementation. *)
Definition from_vector_hit (hit : Hit) (r : SearchResult) : Prop :=
  id r = hit_id hit /\ title r = hit_title hit /\
  keywords r = hit_keywords_or_empty hit /\ abstract r = hit_abstract hit /\
  score r = hit_score hit /\ source r = Some "vector" /\
  matched_keywords r = None.

(** ** The engine's order

    The engine returns its hits by descending score, whatever the query. *)
Definition engine_sorted (self : AsyncPaperSearch) : Prop :=
  forall f body pipeline response,
    opensearch_client self = Some f ->
    f body pipeline = Ok response ->
    non_increasing (map hit_score (hits response)).

(** ** Failures of the LLM call

    The ways the call inside [evaluate_relevance] fails, each with the
    reason the function records: the request raises; the answer holds no
    JSON block, or an empty one; the block does not decode; what it decodes
    to is no object. *)
Inductive call_failure (E : Env) (query text : string) : string -> Prop :=
| chat_raises msg :
    chat_completion E (relevance_prompt query text) = Raise msg ->
    call_failure E query text ("评估出错: " ++ msg)
| json_missing content :
    chat_completion E (relevance_prompt query text) = Ok content ->
    find_json_str (strip content) = None ->
    call_failure E query text "JSON内容解析失败"
| json_empty content :
    chat_completion E (relevance_prompt query text) = Ok content ->
    find_json_str (strip content) = Some EmptyString ->
    call_failure E query text "JSON内容解析失败"
| json_undecodable content json_str :
    chat_completion E (relevance_prompt query text) = Ok content ->
    find_json_str (strip content) = Some json_str ->
    str_truthy json_str = true ->
    json_loads E json_str = None ->
    call_failure E query text "JSON解析失败"
| json_no_object content json_str v msg :
    chat_completion E (relevance_prompt query text) = Ok content ->
    find_json_str (strip content) = Some json_str ->
    str_truthy json_str = true ->
    json_loads E json_str = Some v ->
    py_get v "is_relevant" (JBool true) = Raise msg ->
    call_failure E query text ("评估出错: " ++ msg).

(** * More of the code

    The definitions below cover what the first part leaves out: readings of
    a response, the query expansion of [utils/query_expansion.py], the
    batching of [utils/embedding.py] and the serialisation of the cache
    modules. *)

(** ** Readings of a service and a response *)

(** The same service with no cache handle ([self.cache = None]). *)
Definition without_cache (self : AsyncPaperSearch) : AsyncPaperSearch :=
  {| opensearch_client := opensearch_client self;
     embedder := embedder self;
     reranker := reranker self;
     cache := None |}.

(** A response without the id the cache gave it. *)
Definition clear_search_id (r : SearchResponse) : SearchResponse :=
  {| total := total r;
     results := results r;
     resp_searchType := resp_searchType r;
     rewrittenTerms := rewrittenTerms r;
     search_id := None |}.

(** The same request under another [searchType]. *)
Definition with_search_type (st : string) (request : SearchRequest) : SearchRequest :=
  {| query := query request;
     page := page request;
     pageSize := pageSize request;
     searchType := st;
     enableLlm := enableLlm request |}.

(** A lexical result: built by the keyword or hybrid loop. *)
Definition is_lexical (src : string) (r : SearchResult) : Prop :=
  source r = Some src /\ relevance_reason r = None /\
  exists l, matched_keywords r = Some l.

(** A vector result: built by the vector loop or by supplementation. *)
Definition is_vector (r : SearchResult) : Prop :=
  source r = Some "vector" /\ matched_keywords r = None.

(** [fields.get(key, default)] on the fields of an object. *)
Definition get_or (fields : list (string * json)) (key : string) (default : json)
  : json :=
  match assoc key fields with
  | Some v => v
  | None => default
  end.

(** A string without the character [c]. *)
Fixpoint free_of (c : ascii) (s : string) : bool :=
  match s with
  | EmptyString => true
  | String a s' => negb (Ascii.eqb a c) && free_of c s'
  end.

(** ** Query expansion ([utils/query_expansion.py]) *)

Module QueryExpansion.

(** [QUERY_REWRITE_PROMPT.format(query=query)] *)
Definition query_rewrite_prompt (query : string) : string :=
  ("
# 医学术语处理与多语言专业扩展规则

请分析输入的医学术语，执行以下任务：

1. **提取医学主体**：
   - 从输入的医学术语中识别并提取核心疾病/状况主体
   - 将此核心主体作为" ++ dquote ++ "entity" ++ dquote ++ "字段的值
   - 必须是最具代表性的标准医学术语

2. **多语言专业扩展规则**：
   - 为医学主体提供10个不同的相关术语，每个包含中文、英文全称和英文缩写
   - 确保10个扩展项彼此不同，避免重复内容
   - 中文术语(zh)应纯净简洁，不包含括号和额外说明
   - 其他信息如ICD编码或亚型说明应放在单独字段中
   - 如需包含分类信息，使用" ++ dquote ++ "category" ++ dquote ++ "字段
   - 如需包含ICD编码，使用" ++ dquote ++ "icd" ++ dquote ++ "字段
   - 避免在主要字段中使用括号

3. **术语选择标准**：
   - 优先使用国际通用的标准医学术语
   - 包含该疾病在不同分类系统中的正式名称
   - 纳入临床实践中常用的专业变体表达
   - 可包含重要的亚型或细分类别
   - 必须与原疾病在医学定义上完全一致

4. **输出格式要求**：
   - 使用JSON格式
   - 必填字段：zh(中文术语)、en(英文全称)、abbr(英文缩写)
   - 可选字段：category(分类信息)、icd(ICD编码)
   - 所有中文内容必须使用规范的简体中文
   - 英文缩写必须为通用医学缩写

输出格式示例：
```
Expansion = {
    " ++ dquote ++ "qid" ++ dquote ++ ": " ++ dquote ++ "" ++ query ++ "" ++ dquote ++ ",
    " ++ dquote ++ "entity" ++ dquote ++ ": " ++ dquote ++ "提取的医学主体" ++ dquote ++ ",
    " ++ dquote ++ "additional_info" ++ dquote ++ ": [
        {
            " ++ dquote ++ "zh" ++ dquote ++ ": " ++ dquote ++ "中文术语1" ++ dquote ++ ",
            " ++ dquote ++ "en" ++ dquote ++ ": " ++ dquote ++ "英文全称1" ++ dquote ++ ",
            " ++ dquote ++ "abbr" ++ dquote ++ ": " ++ dquote ++ "英文缩写1" ++ dquote ++ ",
            " ++ dquote ++ "category" ++ dquote ++ ": " ++ dquote ++ "分类信息（可选）" ++ dquote ++ ",
            " ++ dquote ++ "icd" ++ dquote ++ ": " ++ dquote ++ "ICD编码（可选）" ++ dquote ++ "
        },
        // ... 其他9个扩展项 ...
    ]
}
```

注意事项：
1. 所有返回内容必须是规范的JSON格式
2. 确保扩展词与原疾病指向完全相同的医学概念
3. 严格避免混入其他相似但不同的疾病名称
4. 扩展词必须能通过医学文献验证是同一疾病
5. 请将输出结果放在<json>标签中
6. additional_info数组必须包含10个不同的扩展项
7. 提取实体后再进行扩写
")%string.

(** [len(s)] counts characters, not bytes: the bytes of a UTF-8 text that
    do not continue a character (those outside 128..191). *)
Fixpoint py_len (s : string) : nat :=
  match s with
  | EmptyString => O
  | String c s' =>
      let n := nat_of_ascii c in
      if (128 <=? n)%nat && (n <=? 191)%nat then py_len s' else S (py_len s')
  end.

(** The text up to and including the last occurrence of [c]. *)
Fixpoint up_to_last (c : ascii) (s : string) : option string :=
  match s with
  | EmptyString => None
  | String a s' =>
      match up_to_last c s' with
      | Some t => Some (String a t)
      | None => if Ascii.eqb a c then Some (String a EmptyString) else None
      end
  end.

(** [re.search(r'\{.*\}', result, re.DOTALL).group(0)]: from the first
    opening brace to the last closing brace behind it. *)
Definition brace_span (result : string) : option string :=
  match find_sub "{" result with
  | Some (_, inner) =>
      match up_to_last "}" inner with
      | Some t => Some (String "{" t)
      | None => None
      end
  | None => None
  end.

(** [rewrite_query].  [chat] is the completion request of this module (its
    own system message, from the prompt to the content of the first
    choice); the key and [json.loads] are those of the environment. *)
Definition rewrite_query (E : Env) (chat : string -> exc string) (query : string)
  : string :=
  if negb (str_truthy query) || (py_len (strip query) <? 2)%nat then query
  else if negb (str_truthy (openai_api_key E)) then query
  else
    let prompt := query_rewrite_prompt query in
    try_except
      (content <- chat prompt ;;;
       let result := strip content in
       if negb (contains "<json>" result) then
         match brace_span result with
         | Some json_content =>
             match json_loads E json_content with
             | Some _ => Ok ("<json>" ++ json_content ++ "</json>")
             | None => Ok query
             end
         | None => Ok query
         end
       else Ok result)
      (fun _ => query).

(** [s.find(p)]: the offset of the first occurrence, [None] for -1. *)
Definition find_index (p s : string) : option nat :=
  match find_sub p s with
  | Some (before, _) => Some (String.length before)
  | None => None
  end.

(** [s[i:j]] for offsets within the string. *)
Definition slice (s : string) (i j : nat) : string :=
  String.substring i (j - i) s.

(** [x not in search_terms] *)
Definition not_in (x : string) (l : list string) : bool :=
  negb (existsb (String.eqb x) l).

(** [if term and isinstance(term, str) and term not in search_terms:
    search_terms.append(term)] *)
Definition append_term (search_terms : list string) (term : json) : list string :=
  match term with
  | JStr s =>
      if str_truthy s && not_in s search_terms then (search_terms ++ [s])%list
      else search_terms
  | _ => search_terms
  end.

(** One element of [additional_info]: a dict gives its [zh], [en] and
    [abbr]; a string is taken as it is, the empty one too. *)
Definition append_info (search_terms : list string) (info : json) : list string :=
  match info with
  | JObj fields =>
      fold_left (fun terms key => append_term terms (get_or fields key (JStr EmptyString)))
                ["zh"; "en"; "abbr"] search_terms
  | JStr s =>
      if not_in s search_terms then (search_terms ++ [s])%list else search_terms
  | _ => search_terms
  end.

(** The terms of a decoded answer: [qid], [entity], then the additional
    information in order. *)
Definition terms_of_data (fields : list (string * json)) : list string :=
  let search_terms := append_term [] (get_or fields "qid" (JStr EmptyString)) in
  let search_terms :=
    append_term search_terms (get_or fields "entity" (JStr EmptyString)) in
  match get_or fields "additional_info" (JArr []) with
  | JArr infos => fold_left append_info infos search_terms
  | _ => search_terms
  end.

(** [extract_terms_from_rewrite] *)
Definition extract_terms_from_rewrite (E : Env) (rewritten_query : string)
  : list string :=
  match find_index "<json>" rewritten_query, find_index "</json>" rewritten_query with
  | Some start_idx, Some end_idx =>
      let json_str := strip (slice rewritten_query (start_idx + 6) end_idx) in
      match json_loads E json_str with
      | Some (JObj fields) =>
          match terms_of_data fields with
          | [] => [strip rewritten_query]
          | search_terms => search_terms
          end
      | Some _ => [strip rewritten_query]
      | None => [strip rewritten_query]
      end
  | _, _ => [strip rewritten_query]
  end.

(** [expand_query] *)
Definition expand_query (E : Env) (chat : string -> exc string)
    (query : string) : list string :=
  extract_terms_from_rewrite E (rewrite_query E chat query).

(** The strings a decoded answer offers as terms, in the order the code
    visits them: a field read as a term counts when it is a non-empty
    string, a string among the additional information always. *)
Definition term_strings (v : json) : list string :=
  match v with
  | JStr s => if str_truthy s then [s] else []
  | _ => []
  end.

Definition info_strings (info : json) : list string :=
  match info with
  | JObj fields =>
      flat_map (fun key => term_strings (get_or fields key (JStr EmptyString)))
               ["zh"; "en"; "abbr"]
  | JStr s => [s]
  | _ => []
  end.

Definition candidate_strings (fields : list (string * json)) : list string :=
  (term_strings (get_or fields "qid" (JStr EmptyString))
   ++ term_strings (get_or fields "entity" (JStr EmptyString))
   ++ match get_or fields "additional_info" (JArr []) with
      | JArr infos => flat_map info_strings infos
      | _ => []
      end)%list.

(** [if s not in acc: acc.append(s)] *)
Definition add_new (acc : list string) (s : string) : list string :=
  if not_in s acc then (acc ++ [s])%list else acc.

(** A list without its repetitions, first occurrences kept in place. *)
Definition dedup_first (l : list string) : list string :=
  fold_left add_new l [].

End QueryExpansion.


(** ** Reading a vector descriptor *)

Definition must_not_clauses (q : Query) : list Clause :=
  match q with
  | q_bool_knn _ must_not => must_not
  | _ => []
  end.

Definition knn_of (q : Query) : option Knn :=
  match q with
  | q_bool_knn must _ => Some must
  | q_knn knn => Some knn
  | _ => None
  end.

(** ** Batched embedding ([utils/embedding.py]) *)

Module Embedding.

(** The starts of [range(0, n, batch_size)] for a positive step. *)
Definition batch_starts (n batch_size : nat) : list nat :=
  map (fun k => k * batch_size)%nat (seq 0 ((n + batch_size - 1) / batch_size)).

(** [texts[i:i + batch_size]] *)
Definition batch_at (texts : list string) (batch_size i : nat) : list string :=
  take batch_size (drop i texts).

(** [emb['embedding']] *)
Definition py_item_embedding (item : json) : exc json :=
  match item with
  | JObj fields =>
      match assoc "embedding" fields with
      | Some v => Ok v
      | None => Raise "KeyError: 'embedding'"
      end
  | _ => Raise "TypeError: indices must be integers"
  end.

(** [response_body['data']] *)
Definition py_body_data (body : json) : exc json :=
  match body with
  | JObj fields =>
      match assoc "data" fields with
      | Some v => Ok v
      | None => Raise "KeyError: 'data'"
      end
  | _ => Raise "TypeError: indices must be integers"
  end.

(** One turn of the loop: send the batch, read the embeddings of the
    answer.  [endpoint] is the SageMaker endpoint, from the batch to the
    decoded body. *)
Definition embed_batch (endpoint : list string -> exc json) (batch_texts : list string)
  : exc (list json) :=
  response_body <- endpoint batch_texts ;;;
  embeddings <- py_body_data response_body ;;;
  items <- py_iter embeddings ;;;
  mapM py_item_embedding items.

(** [get_embeddings(texts, batch_size)] on a list of texts: the rows
    gathered in [all_embeddings], which [np.array] then wraps.  A step of
    zero makes [range] raise; a negative one gives no turn at all. *)
Definition get_embeddings (endpoint : list string -> exc json) (texts : list string)
    (batch_size : Z) : exc (list json) :=
  if (batch_size =? 0)%Z then Raise "ValueError: range() arg 3 must not be zero"
  else if (batch_size <? 0)%Z then Ok []
  else
    let b := Z.to_nat batch_size in
    batches <- mapM (fun i => embed_batch endpoint (batch_at texts b i))
                    (batch_starts (length texts) b) ;;;
    Ok (concat batches).

(** [get_embeddings(text)] on a single string: [texts = [texts]], with the
    default batch size of 32. *)
Definition get_embeddings_str (endpoint : list string -> exc json) (text : string)
  : exc (list json) :=
  get_embeddings endpoint [text] 32.

End Embedding.

(** ** Serialising results for the cache ([utils/s3_cache.py]) *)

Module S3Cache.

(** [x or []] and [x or ""] on an optional field. *)
Definition or_empty_list (x : option (list string)) : list string :=
  match x with
  | Some l => l
  | None => []
  end.

Definition or_empty_str (x : option string) : string :=
  match x with
  | Some s => s
  | None => EmptyString
  end.

(** The dict built for one result. *)
Definition serialize_result (result : SearchResult) : json :=
  JObj [ ("id", JStr (id result));
         ("title", JStr (title result));
         ("keywords", JArr (map JStr (keywords result)));
         ("abstract", JStr (abstract result));
         ("score", JNum (score result));
         ("source", JStr (or_empty_str (source result)));
         ("matched_keywords", JArr (map JStr (or_empty_list (matched_keywords result))));
         ("relevance_reason", JStr (or_empty_str (relevance_reason result))) ].

(** [_serialize_search_results] *)
Definition _serialize_search_results (results : list SearchResult) : list json :=
  map serialize_result results.

(** A result as the cache remembers it: a missing source, reason or list
    of matched keywords is the empty one. *)
Definition normalize (r : SearchResult) : SearchResult :=
  {| id := id r; title := title r; keywords := keywords r;
     abstract := abstract r; score := score r;
     source := Some (or_empty_str (source r));
     matched_keywords := Some (or_empty_list (matched_keywords r));
     relevance_reason := Some (or_empty_str (relevance_reason r)) |}.

End S3Cache.

(** ** A concrete service, for the runs below *)

Module Demo.

Definition json_relevant : string :=
  "{" ++ dquote ++ "is_relevant" ++ dquote ++ ": true, "
      ++ dquote ++ "reason" ++ dquote ++ ": " ++ dquote ++ "on topic" ++ dquote ++ "}".
Definition json_irrelevant : string :=
  "{" ++ dquote ++ "is_relevant" ++ dquote ++ ": false, "
      ++ dquote ++ "reason" ++ dquote ++ ": " ++ dquote ++ "off topic" ++ dquote ++ "}".
Definition json_null_reason : string :=
  "{" ++ dquote ++ "is_relevant" ++ dquote ++ ": true, "
      ++ dquote ++ "reason" ++ dquote ++ ": null}".

(** [json.loads] on the three texts above, as Python decodes them. *)
Definition loads (s : string) : option json :=
  if String.eqb s json_relevant then
    Some (JObj [("is_relevant", JBool true); ("reason", JStr "on topic")])
  else if String.eqb s json_irrelevant then
    Some (JObj [("is_relevant", JBool false); ("reason", JStr "off topic")])
  else if String.eqb s json_null_reason then
    Some (JObj [("is_relevant", JBool true); ("reason", JNull)])
  else None.

(** An LLM that finds every abstract on topic but those that mention
    diabetes. *)
Definition chat (prompt : string) : exc string :=
  if contains "diabetes" prompt
  then Ok ("<json>" ++ json_irrelevant ++ "</json>")
  else Ok ("<json>" ++ json_relevant ++ "</json>").

Definition env : Env :=
  {| ENABLE_RERANK := true;
     openai_api_key := "sk-demo";
     unquote := fun s => s;
     expand_query := fun q => Ok [q; "青光眼"; "GLC"];
     chat_completion := chat;
     json_loads := loads;
     float_of_str := fun _ => None |}.

Definition p1 : Hit :=
  {| hit_id := "p1"; hit_title := "Glaucoma progression";
     hit_keywords := Some ["glaucoma"; "IOP"];
     hit_abstract := "A cohort study.";
     hit_score := 8;
     hit_highlight := Some [("title", ["<em>Glaucoma</em> progression"])] |}.
Definition p2 : Hit :=
  {| hit_id := "p2"; hit_title := "GLC loci";
     hit_keywords := None;
     hit_abstract := "Genetics of the GLC loci.";
     hit_score := 3;
     hit_highlight := Some [("title", ["<em>GLC</em> loci"])] |}.
Definition p3 : Hit :=
  {| hit_id := "p3"; hit_title := "Optic nerve damage";
     hit_keywords := Some ["optic nerve"];
     hit_abstract := "Pressure and the optic nerve.";
     hit_score := 5;
     hit_highlight := None |}.
Definition p4 : Hit :=
  {| hit_id := "p4"; hit_title := "Retinopathy";
     hit_keywords := None;
     hit_abstract := "Eye disease in diabetes.";
     hit_score := 4;
     hit_highlight := None |}.
Definition p5 : Hit :=
  {| hit_id := "p5"; hit_title := "Cataract surgery";
     hit_keywords := None;
     hit_abstract := "Outcomes of surgery.";
     hit_score := 1 # 20;
     hit_highlight := None |}.

(** An engine that answers by the kind of query: the lexical hits to a
    keyword or hybrid query, the neighbours to a vector query. *)
Definition engine (body : SearchBody) (pipeline : option string) : exc EngineResponse :=
  match body_query body with
  | q_bool_should _ _ => Ok {| hits := [p1; p2]; hits_total_value := 2 |}
  | q_bool_knn _ _ => Ok {| hits := [p3; p4; p5]; hits_total_value := 3 |}
  | q_hybrid _ => Ok {| hits := [p1; p3]; hits_total_value := 57 |}
  | q_knn _ => Raise "RequestError: knn outside a bool or hybrid query"
  end.

Definition embed (text : string) : exc (list Q) := Ok [1 # 2; 1 # 4].

(** A rerank model that scores the first passage 0.2 and every later one
    0.9. *)
Definition rerank_scores (passages : list string) : list json :=
  match passages with
  | [] => []
  | _ :: rest =>
      JObj [("score", JNum (2 # 10))]
        :: map (fun _ => JObj [("score", JNum (9 # 10))]) rest
  end.

Definition rerank_model : BGEReranker :=
  {| invoke_endpoint := fun _ passages => Ok (JObj [("data", JArr (rerank_scores passages))]) |}.

Definition cache_save (query search_type : string) (response : SearchResponse)
    (enable_llm : bool) : option string := Some "c0ffee".

Definition service : AsyncPaperSearch :=
  {| opensearch_client := Some engine;
     embedder := Some embed;
     reranker := None;
     cache := Some cache_save |}.

Definition service_with_reranker : AsyncPaperSearch :=
  {| opensearch_client := Some engine;
     embedder := Some embed;
     reranker := Some rerank_model;
     cache := Some cache_save |}.

Definition service_without_embedder : AsyncPaperSearch :=
  {| opensearch_client := Some engine;
     embedder := None;
     reranker := None;
     cache := None |}.

(** The same environment with an LLM whose JSON gives [null] as the
    reason. *)
Definition env_null_reason : Env :=
  {| ENABLE_RERANK := true;
     openai_api_key := "sk-demo";
     unquote := fun s => s;
     expand_query := fun q => Ok [q; "青光眼"; "GLC"];
     chat_completion := fun _ => Ok ("<json>" ++ json_null_reason ++ "</json>");
     json_loads := loads;
     float_of_str := fun _ => None |}.

(** The same environment with an LLM endpoint that is down. *)
Definition env_llm_down : Env :=
  {| ENABLE_RERANK := true;
     openai_api_key := "sk-demo";
     unquote := fun s => s;
     expand_query := fun q => Ok [q; "青光眼"; "GLC"];
     chat_completion := fun _ => Raise "Connection error.";
     json_loads := loads;
     float_of_str := fun _ => None |}.

Definition result_a : SearchResult :=
  {| id := "A"; title := "Alpha"; keywords := []; abstract := "first";
     score := 8 # 10; source := Some "keyword";
     matched_keywords := Some []; relevance_reason := None |}.
Definition result_b : SearchResult :=
  {| id := "B"; title := "Beta"; keywords := []; abstract := "second";
     score := 5 # 10; source := Some "keyword";
     matched_keywords := Some []; relevance_reason := None |}.

Definition request (search_type : string) (enable_llm : bool) : SearchRequest :=
  {| query := Some "glaucoma"; page := 1; pageSize := 30;
     searchType := search_type; enableLlm := enable_llm |}.

End Demo.

(** ** Answers of the rewrite model, for the runs below *)

Module DemoExpansion.

Definition answer_json : string :=
  "{" ++ dquote ++ "qid" ++ dquote ++ ": " ++ dquote ++ "glaucoma" ++ dquote ++ "}".

(** [json.loads] on the answer above, as Python decodes it, with two
    additional entries as the prompt asks for them. *)
Definition loads (s : string) : option json :=
  if String.eqb s answer_json then
    Some (JObj [("qid", JStr "glaucoma"); ("entity", JStr "glaucoma");
                ("additional_info",
                 JArr [JObj [("zh", JStr "青光眼"); ("en", JStr "glaucoma");
                             ("abbr", JStr "GLC")];
                       JStr "ocular hypertension"])])
  else None.

Definition env : Env :=
  {| ENABLE_RERANK := true;
     openai_api_key := "sk-demo";
     unquote := fun s => s;
     expand_query := fun q => Ok [q];
     chat_completion := fun _ => Raise "unused";
     json_loads := loads;
     float_of_str := fun _ => None |}.

Definition env_no_key : Env :=
  {| ENABLE_RERANK := true;
     openai_api_key := EmptyString;
     unquote := fun s => s;
     expand_query := fun q => Ok [q];
     chat_completion := fun _ => Raise "unused";
     json_loads := loads;
     float_of_str := fun _ => None |}.

(** A model that answers with the bare JSON, and one that tags it. *)
Definition chat_bare (prompt : string) : exc string := Ok (" " ++ answer_json ++ newline).
Definition chat_tagged (prompt : string) : exc string :=
  Ok ("<json>" ++ answer_json ++ "</json>").
Definition chat_down (prompt : string) : exc string := Raise "Connection error.".

End DemoExpansion.

(** * Properties *)

(** ** The error monad *)

Lemma exc_bind_Ok {A B : Type} (m : exc A) (k : A -> exc B) (b : B) :
  exc_bind m k = Ok b -> exists a, m = Ok a /\ k a = Ok b.
Proof. destruct m as [a|msg]; simpl; [eauto | discriminate]. Qed.

Lemma mapM_Ok_length {A B : Type} (f : A -> exc B) (l : list A) (l' : list B) :
  mapM f l = Ok l' -> length l' = length l.
Proof.
  revert l'. induction l as [|x l IH]; intros l' H; simpl in H.
  - by inversion H.
  - apply exc_bind_Ok in H as (y & _ & H).
    apply exc_bind_Ok in H as (ys & Hys & H).
    inversion H; subst. simpl. f_equal. by apply IH.
Qed.

(** ** The stable descending sort *)

Section SortFacts.
Context {A : Type} (key : A -> Q).

Lemma insert_desc_perm (x : A) (l : list A) :
  Permutation (x :: l) (insert_desc key x l).
Proof.
  induction l as [|y l IH]; simpl; [done|].
  destruct (Qle_bool (key y) (key x)); [done|].
  rewrite perm_swap. by apply perm_skip.
Qed.

Lemma sort_desc_perm (l : list A) : Permutation l (sort_desc key l).
Proof.
  induction l as [|x l IH]; simpl; [done|].
  rewrite <- insert_desc_perm. by apply perm_skip.
Qed.

Lemma sort_desc_length (l : list A) : length (sort_desc key l) = length l.
Proof. symmetry. apply Permutation_length, sort_desc_perm. Qed.

Lemma insert_desc_sorted (x : A) (l : list A) :
  StronglySorted (desc key) l -> StronglySorted (desc key) (insert_desc key x l).
Proof.
  induction 1 as [|y l Hl IH Hy]; simpl.
  - repeat constructor.
  - destruct (Qle_bool (key y) (key x)) eqn:Hle.
    + apply Qle_bool_iff in Hle.
      constructor; [by constructor|].
      constructor; [done|].
      eapply Forall_impl; [exact Hy|].
      intros z Hz. unfold desc in *. eapply Qle_trans; eassumption.
    + constructor; [done|].
      assert (Hlt : (key x <= key y)%Q).
      { destruct (Qlt_le_dec (key x) (key y)) as [Hlt|Hge].
        - by apply Qlt_le_weak.
        - apply Qle_bool_iff in Hge. congruence. }
      eapply Permutation_Forall; [apply insert_desc_perm|].
      by constructor.
Qed.

Lemma sort_desc_sorted (l : list A) : StronglySorted (desc key) (sort_desc key l).
Proof.
  induction l as [|x l IH]; simpl; [constructor|].
  by apply insert_desc_sorted.
Qed.

(** The sort leaves a list alone that is sorted already: no two entries
    change places (stability). *)
Lemma sort_desc_sorted_id (l : list A) :
  StronglySorted (desc key) l -> sort_desc key l = l.
Proof.
  induction 1 as [|x l Hl IH Hx]; simpl; [done|].
  rewrite IH. destruct l as [|y l']; simpl; [done|].
  inversion Hx as [|? ? Hy _]; subst.
  apply Qle_bool_iff in Hy. by rewrite Hy.
Qed.

(** Stability: the entries of any one key come out in the order they went
    in. *)
Lemma insert_desc_filter_key (q : Q) (x : A) (l : list A) :
  List.filter (fun a => Qeq_bool (key a) q) (insert_desc key x l)
  = List.filter (fun a => Qeq_bool (key a) q) (x :: l).
Proof.
  induction l as [|y l IH]; [done|].
  cbn [insert_desc]. destruct (Qle_bool (key y) (key x)) eqn:Hle; [done|].
  cbn [List.filter] in *. rewrite IH.
  destruct (Qeq_bool (key x) q) eqn:Hx, (Qeq_bool (key y) q) eqn:Hy; try done.
  apply Qeq_bool_iff in Hx, Hy.
  assert (Hxy : (key y <= key x)%Q) by (rewrite Hx, Hy; apply Qle_refl).
  apply Qle_bool_iff in Hxy. congruence.
Qed.

Lemma sort_desc_stable (q : Q) (l : list A) :
  List.filter (fun a => Qeq_bool (key a) q) (sort_desc key l)
  = List.filter (fun a => Qeq_bool (key a) q) l.
Proof.
  induction l as [|x l IH]; [done|].
  cbn [sort_desc]. rewrite insert_desc_filter_key.
  cbn [List.filter]. by rewrite IH.
Qed.

Lemma sorted_non_increasing (l : list A) :
  StronglySorted (desc key) l -> non_increasing (map key l).
Proof.
  induction 1 as [|x l Hl IH Hx]; simpl; constructor; [done|].
  apply Forall_map. exact Hx.
Qed.

Lemma non_increasing_sorted (l : list A) :
  non_increasing (map key l) -> StronglySorted (desc key) l.
Proof.
  induction l as [|x l IH]; simpl; intros H; [constructor|].
  inversion H as [|? ? Hl Hx]; subst.
  constructor; [by apply IH|].
  apply (proj1 (List.Forall_map key (fun b => (b <= key x)%Q) l)) in Hx.
  exact Hx.
Qed.
End SortFacts.

(** ** The keyword query builder *)


Lemma flat_map_length_3 {A B : Type} (f : A -> list B) (l : list A) :
  (forall a, length (f a) = 3%nat) -> length (flat_map f l) = (3 * length l)%nat.
Proof.
  intros Hf. induction l as [|a l IH]; simpl; [done|].
  rewrite length_app, Hf, IH. lia.
Qed.

(** C9: the keyword query builder is a function of the terms, the page and
    the page size alone (equal inputs give the same descriptor).  For [n]
    terms its [should] list holds exactly [3 * n] phrase clauses, for each
    term one on the title with boost 5, one on the keywords with boost 10
    and one on the abstract with boost 2, and nothing else;
    [minimum_should_match] is 1, [from] is [(page - 1) * pageSize], [size]
    is [pageSize], and highlighting is asked for the three fields. *)
Theorem build_keyword_search_query_shape (terms : list string) (pg page_size : Z) :
  let d := build_keyword_search_query terms pg page_size in
  (forall terms' pg' page_size',
      terms' = terms -> pg' = pg -> page_size' = page_size ->
      build_keyword_search_query terms' pg' page_size' = d) /\
  length (should_clauses (body_query d)) = (3 * length terms)%nat /\
  (forall c, In c (should_clauses (body_query d)) <->
             exists t, In t terms /\
                       (c = match_phrase_boost "title" t 5 \/
                        c = match_phrase_boost "keywords" t 10 \/
                        c = match_phrase_boost "abstract" t 2)) /\
  min_should_match (body_query d) = Some 1%Z /\
  body_from d = Some ((pg - 1) * page_size)%Z /\
  body_size d = page_size /\
  body_highlight d = Some ["title"; "abstract"; "keywords"].
Proof.
  simpl. split; [by intros ? ? ? -> -> ->|].
  split; [by apply flat_map_length_3|].
  split; [|done].
  intros c. rewrite in_flat_map. split.
  - intros (t & Ht & Hc). exists t. split; [done|].
    simpl in Hc. destruct Hc as [ <- | [ <- | [ <- | [] ] ] ]; auto.
  - intros (t & Ht & Hc). exists t. split; [done|].
    simpl. destruct Hc as [ -> | [ -> | -> ] ]; auto.
Qed.

(** The example of the specification: three terms, nine clauses. *)
Example build_keyword_search_query_glaucoma :
  length (should_clauses
            (body_query (build_keyword_search_query ["glaucoma"; "青光眼"; "GLC"] 1 30)))
  = 9%nat
  /\ body_from (build_keyword_search_query ["glaucoma"; "青光眼"; "GLC"] 1 30) = Some 0%Z
  /\ body_size (build_keyword_search_query ["glaucoma"; "青光眼"; "GLC"] 1 30) = 30%Z.
Proof. by vm_compute. Qed.

(** The request of the runs below is one pydantic accepts. *)
Example demo_request_valid : valid_request (Demo.request "keyword" false).
Proof.
  split; [|by vm_compute].
  exists "glaucoma". split; [reflexivity | simpl; lia].
Qed.

(** ** [search] absorbs every failure *)

Ltac exc_step :=
  match goal with
  | |- context [exc_bind ?m _] =>
      let a := fresh "a" in
      let msg := fresh "msg" in
      let Hm := fresh "Hm" in
      destruct m as [a|msg] eqn:Hm; simpl
  end.


Lemma search_Raise (E : Env) (self : AsyncPaperSearch) (request : SearchRequest) msg :
  search_body E self request = Raise msg ->
  search E self request = empty_response request.
Proof. unfold search. by intros ->. Qed.

Lemma search_body_cases (E : Env) (self : AsyncPaperSearch) (request : SearchRequest) :
  search_body E self request = Ok (search E self request) \/
  search E self request = empty_response request.
Proof.
  unfold search. destruct (search_body E self request); simpl; auto.
Qed.


(** C1: [search] returns a response for every request (it is a total
    function into [SearchResponse]), and every internal failure, whether a
    missing OpenSearch client, a missing embedder under the vector or hybrid
    strategy, a collaborator that raises, or any exception that leaves the
    body of the [try], ends in the response with [total = 0], no results,
    the [searchType] of the request and no rewritten terms. *)
Theorem search_absorbs_failures (E : Env) (self : AsyncPaperSearch)
    (request : SearchRequest) :
  internal_failure E self request ->
  search E self request = empty_response request /\
  total (search E self request) = 0%Z /\
  results (search E self request) = [] /\
  resp_searchType (search E self request) = searchType request /\
  rewrittenTerms (search E self request) = None.
Proof.
  intros Hfail.
  assert (Hempty : search E self request = empty_response request);
    [|by rewrite Hempty].
  unfold search.
  destruct Hfail as [Hc|He Ht|Hengine|Hemb Ht|Hexp|msg Hbody].
  - unfold search_body. by rewrite Hc.
  - unfold search_body. destruct (opensearch_client self); [|done].
    destruct (decoded_query E request) as [q|]; [|done].
    destruct (str_truthy q); [|done]. simpl.
    exc_step; [|done].
    unfold _hybrid_search, _vector_search. rewrite He.
    destruct Ht as [-> | ->]; done.
  - unfold search_body. destruct (opensearch_client self); [|done].
    destruct (decoded_query E request) as [q|]; [|done].
    destruct (str_truthy q); [|done]. simpl.
    exc_step; [|done].
    unfold _hybrid_search, _vector_search, _keyword_search.
    repeat case_match; try done; repeat (exc_step; try done);
      match goal with
      | H : client_search self ?b ?p = Ok _ |- _ =>
          destruct (Hengine b p) as [m Hm']; congruence
      end.
  - unfold search_body. destruct (opensearch_client self); [|done].
    destruct (decoded_query E request) as [q|]; [|done].
    destruct (str_truthy q); [|done]. simpl.
    exc_step; [|done].
    unfold _hybrid_search, _vector_search.
    destruct (Hemb q) as [m Hq].
    destruct Ht as [-> | ->]; simpl; destruct (embedder self); try done;
      by rewrite Hq.
  - unfold search_body. destruct (opensearch_client self); [|done].
    destruct (decoded_query E request) as [q|]; [|done].
    destruct (str_truthy q); [|done]. simpl.
    destruct (Hexp q) as [m ->]. done.
  - by rewrite Hbody.
Qed.

Lemma search_absorbs_failures_witness :
  internal_failure Demo.env Demo.service_without_embedder (Demo.request "vector" true) /\
  search Demo.env Demo.service_without_embedder (Demo.request "vector" true)
  = empty_response (Demo.request "vector" true).
Proof.
  assert (H : internal_failure Demo.env Demo.service_without_embedder
                               (Demo.request "vector" true)).
  { apply no_embedder; [reflexivity | left; reflexivity]. }
  split; [exact H|].
  exact (proj1 (search_absorbs_failures _ _ _ H)).
Defined.

(** ** The empty query *)

(** C8: when the query of a request is null, or empty once URL-decoded,
    [search] returns the response with [total = 0], no results, no rewritten
    terms and the [searchType] of the request; with a client at hand this is
    the early [return] of the body, reached before the query expansion and
    before any strategy: it holds whatever the collaborators would do. *)
Theorem search_empty_query (E : Env) (self : AsyncPaperSearch)
    (request : SearchRequest) :
  query request = None \/ (exists q, query request = Some q /\ unquote E q = EmptyString) ->
  search E self request = empty_response request /\
  total (search E self request) = 0%Z /\
  results (search E self request) = [] /\
  rewrittenTerms (search E self request) = None /\
  resp_searchType (search E self request) = searchType request /\
  (opensearch_client self <> None ->
   search_body E self request = Ok (empty_response request)).
Proof.
  intros Hq.
  assert (Hbody : opensearch_client self <> None ->
                  search_body E self request = Ok (empty_response request)).
  { intros Hc. unfold search_body.
    destruct (opensearch_client self); [|done].
    unfold decoded_query.
    destruct Hq as [-> | (q & -> & Hdec)]; simpl; [done|].
    by rewrite Hdec. }
  assert (Hempty : search E self request = empty_response request).
  { unfold search.
    destruct (opensearch_client self) eqn:Hc.
    - rewrite Hbody; [done|]. congruence.
    - unfold search_body. by rewrite Hc. }
  by rewrite Hempty.
Qed.

Lemma search_empty_query_witness :
  (query {| query := Some ""; page := 1; pageSize := 30;
            searchType := "hybrid"; enableLlm := true |} = None \/
   exists q, query {| query := Some ""; page := 1; pageSize := 30;
                      searchType := "hybrid"; enableLlm := true |} = Some q /\
             unquote Demo.env q = EmptyString) /\
  search Demo.env Demo.service
         {| query := Some ""; page := 1; pageSize := 30;
            searchType := "hybrid"; enableLlm := true |}
  = {| total := 0; results := []; resp_searchType := "hybrid";
       rewrittenTerms := None; search_id := None |}.
Proof.
  assert (H : query {| query := Some ""; page := 1; pageSize := 30;
                       searchType := "hybrid"; enableLlm := true |} = None \/
              exists q, query {| query := Some ""; page := 1; pageSize := 30;
                                 searchType := "hybrid"; enableLlm := true |} = Some q /\
                        unquote Demo.env q = EmptyString).
  { right. exists EmptyString. split; reflexivity. }
  split; [exact H|].
  exact (proj1 (search_empty_query Demo.env Demo.service _ H)).
Defined.

(** ** Reranking *)

Lemma overwrite_scores_ge (rr : list RerankItem) (results : list SearchResult) (n : nat) :
  (length results <= n)%nat -> overwrite_scores n rr results = results.
Proof.
  revert n. induction rr as [|item rr IH]; intros n Hn; simpl; [done|].
  replace (n <? length results)%nat with false
    by (symmetry; apply Nat.ltb_ge; lia).
  apply IH. lia.
Qed.

Lemma overwrite_scores_app (rr : list RerankItem) (done_ todo : list SearchResult) :
  overwrite_scores (length done_) rr (done_ ++ todo)%list
  = (done_ ++ zip_overwrite rr todo)%list.
Proof.
  revert done_ todo. induction rr as [|item rr IH]; intros done_ todo; simpl; [done|].
  destruct todo as [|r todo].
  - rewrite app_nil_r.
    replace (length done_ <? length done_)%nat with false
      by (symmetry; apply Nat.ltb_ge; lia).
    apply overwrite_scores_ge. lia.
  - replace (length done_ <? length (done_ ++ r :: todo))%nat with true
      by (symmetry; apply Nat.ltb_lt; rewrite length_app; simpl; lia).
    replace (alter (set_score (rr_score item)) (length done_) (done_ ++ r :: todo)%list)
      with ((done_ ++ [set_score (rr_score item) r]) ++ todo)%list.
    + replace (S (length done_)) with (length (done_ ++ [set_score (rr_score item) r]))
        by (rewrite length_app; simpl; lia).
      rewrite IH. by rewrite <- app_assoc.
    + rewrite <- app_assoc. simpl.
      rewrite alter_app_r_alt by lia.
      by rewrite Nat.sub_diag.
Qed.

Lemma overwrite_scores_zip (rr : list RerankItem) (results : list SearchResult) :
  overwrite_scores 0 rr results = zip_overwrite rr results.
Proof. exact (overwrite_scores_app rr [] results). Qed.

Lemma zip_overwrite_forget (rr : list RerankItem) (results : list SearchResult) :
  map forget_score (zip_overwrite rr results) = map forget_score results.
Proof.
  revert results. induction rr as [|item rr IH]; intros [|r results]; simpl; try done.
  by rewrite IH.
Qed.

Lemma zip_overwrite_length (rr : list RerankItem) (results : list SearchResult) :
  length (zip_overwrite rr results) = length results.
Proof.
  rewrite <- (length_map forget_score), zip_overwrite_forget. apply length_map.
Qed.

(** Reranking neither adds nor removes a result: up to the order and the
    scores, the results are the same. *)
Lemma rerank_results_perm (E : Env) (rr : BGEReranker) (query : string)
    (results : list SearchResult) :
  Permutation (map forget_score (_rerank_results E rr query results))
              (map forget_score results).
Proof.
  unfold _rerank_results.
  destruct (rerank E rr query (map title results)) as [|item items]; [done|].
  rewrite <- sort_desc_perm, overwrite_scores_zip.
  by rewrite zip_overwrite_forget.
Qed.

Lemma rerank_results_length (E : Env) (rr : BGEReranker) (query : string)
    (results : list SearchResult) :
  length (_rerank_results E rr query results) = length results.
Proof.
  rewrite <- (length_map forget_score (_rerank_results _ _ _ _)).
  rewrite (Permutation_length (rerank_results_perm E rr query results)).
  apply length_map.
Qed.

(** When the endpoint raises, or answers without a [data] field or with an
    empty list of scores, [rerank] has nothing to return and the results
    pass through as they are. *)
Lemma rerank_results_unchanged (E : Env) (rr : BGEReranker) (query : string)
    (results : list SearchResult) :
  (exists msg, invoke_endpoint rr query (map title results) = Raise msg) \/
  (exists body, invoke_endpoint rr query (map title results) = Ok body /\
                forall fields data, body = JObj fields ->
                                    assoc "data" fields = Some data -> data = JArr []) ->
  _rerank_results E rr query results = results.
Proof.
  intros H. unfold _rerank_results.
  assert (Hnil : rerank E rr query (map title results) = []); [|by rewrite Hnil].
  unfold rerank. destruct (map title results) as [|t ts]; [done|].
  destruct H as [[msg ->] | (body & -> & Hbody)]; [done|].
  simpl. destruct body as [| | | | |fields]; try done.
  destruct (assoc "data" fields) as [data|] eqn:Hdata; [|done].
  by rewrite (Hbody fields data eq_refl Hdata).
Qed.

(** What [rerank] returns is sorted by descending score, whatever order
    the passages came in. *)
Lemma rerank_sorted (E : Env) (rr : BGEReranker) (query : string)
    (passages : list string) :
  StronglySorted (desc rr_score) (rerank E rr query passages).
Proof.
  unfold rerank. destruct passages as [|p ps]; [constructor|].
  unfold try_except.
  destruct (invoke_endpoint rr query (p :: ps)) as [body|]; simpl; [|constructor].
  destruct body as [| | | | |fields]; try constructor.
  destruct (assoc "data" fields) as [data|]; [|constructor].
  repeat (exc_step; [|constructor]).
  apply sort_desc_sorted.
Qed.

Lemma zip_overwrite_sorted (rr : list RerankItem) (results : list SearchResult) :
  (length results <= length rr)%nat ->
  StronglySorted (desc rr_score) rr ->
  StronglySorted (desc score) (zip_overwrite rr results).
Proof.
  revert results. induction rr as [|item rr IH]; intros [|r results] Hlen Hs;
    simpl in *; try constructor; try lia.
  - apply IH; [lia|]. by inversion Hs.
  - inversion Hs as [|? ? Hs' Hitem]; subst.
    clear IH Hs Hs'. revert results Hlen.
    induction rr as [|item' rr IH']; intros [|r' results] Hlen; simpl in *;
      try constructor; try lia.
    + by inversion Hitem.
    + apply IH'; [by inversion Hitem | lia].
Qed.

(** The defect behind C2, in general: [rerank] hands back its scores
    sorted, [_rerank_results] writes them onto the results by position, and
    so, whenever every result gets a score, the final sort finds the list
    sorted already.  The results keep the order they came in; only their
    scores change, to the rerank scores in descending order. *)
Lemma rerank_results_keeps_order (E : Env) (rr : BGEReranker) (query : string)
    (results : list SearchResult) :
  (length results <= length (rerank E rr query (map title results)))%nat ->
  map id (_rerank_results E rr query results) = map id results /\
  map score (_rerank_results E rr query results)
  = map rr_score (take (length results) (rerank E rr query (map title results))).
Proof.
  intros Hlen. unfold _rerank_results.
  pose proof (rerank_sorted E rr query (map title results)) as Hs.
  destruct (rerank E rr query (map title results)) as [|item items] eqn:Hrr.
  - destruct results; simpl in *; [done | lia].
  - rewrite overwrite_scores_zip.
    rewrite sort_desc_sorted_id by (by apply zip_overwrite_sorted).
    clear Hrr Hs. revert Hlen. generalize (item :: items) as l.
    induction results as [|r results IH]; intros [|x l] Hlen; simpl in *;
      try done; try lia.
    destruct (IH l) as [IH1 IH2]; [lia|].
    by rewrite IH1, IH2.
Qed.

(** C2, at a failing input.  The rerank model scores the title "Alpha" 0.2
    and the title "Beta" 0.9.  [rerank] returns the two scores sorted, Beta's
    first, not aligned with the titles it was given; [_rerank_results] then
    writes 0.9 onto result A and 0.2 onto result B and leaves A in front.
    With scores aligned by position, as the claim has it, B would come
    first with 0.9 and A second with 0.2.  The same happens inside [search]:
    the hybrid hit p1, first passage and scored 0.2 by the model, is
    returned first with 0.9. *)
Theorem rerank_results_misaligned :
  rerank Demo.env Demo.rerank_model "glaucoma" ["Alpha"; "Beta"]
  = [ {| rr_text := "Beta"; rr_score := 9 # 10 |};
      {| rr_text := "Alpha"; rr_score := 2 # 10 |} ] /\
  map (fun r => (id r, score r))
      (_rerank_results Demo.env Demo.rerank_model "glaucoma"
                       [Demo.result_a; Demo.result_b])
  = [("A", 9 # 10); ("B", 2 # 10)] /\
  map (fun r => (id r, score r))
      (spec_rerank_results Demo.env Demo.rerank_model "glaucoma"
                           [Demo.result_a; Demo.result_b])
  = [("B", 9 # 10); ("A", 2 # 10)] /\
  map (fun r => (id r, score r))
      (results (search Demo.env Demo.service_with_reranker
                       (Demo.request "hybrid" false)))
  = [("p1", 9 # 10); ("p3", 2 # 10)].
Proof. vm_compute. repeat split. Qed.

(** ** Matched keywords *)

Lemma strip_prefix_length (p s rest : string) :
  strip_prefix p s = Some rest ->
  String.length s = (String.length p + String.length rest)%nat.
Proof.
  revert s. induction p as [|a p IH]; intros s H; simpl in *.
  - by inversion H.
  - destruct s as [|b s]; [done|].
    destruct (Ascii.eqb a b); [|done].
    simpl. f_equal. by apply IH.
Qed.

Lemma until_close_em_length (t captured rest : string) :
  until_close_em t = Some (captured, rest) ->
  (String.length rest <= String.length t)%nat.
Proof.
  revert captured rest. induction t as [|c t IH]; intros captured rest H.
  - simpl in H. done.
  - cbn [until_close_em] in H.
    destruct (strip_prefix "</em>" (String c t)) as [r|] eqn:Hp.
    + inversion H; subst. apply strip_prefix_length in Hp. lia.
    + destruct (Ascii.eqb c "010"); [done|].
      destruct (until_close_em t) as [[cap r]|]; [|done].
      inversion H; subst. specialize (IH _ _ eq_refl). simpl. lia.
Qed.

Lemma findall_em_fuel_irrelevant (fuel1 fuel2 : nat) (s : string) :
  (String.length s <= fuel1)%nat -> (String.length s <= fuel2)%nat ->
  findall_em_fuel fuel1 s = findall_em_fuel fuel2 s.
Proof.
  revert fuel2 s. induction fuel1 as [|fuel1 IH]; intros fuel2 s H1 H2.
  - destruct s; [|simpl in H1; lia]. by destruct fuel2.
  - destruct fuel2 as [|fuel2].
    + destruct s; [done | simpl in H2; lia].
    + cbn [findall_em_fuel]. destruct s as [|c s]; [done|].
      simpl in H1, H2.
      destruct (strip_prefix "<em>" (String c s)) as [inner|] eqn:Hp.
      * apply strip_prefix_length in Hp. simpl in Hp.
        destruct (until_close_em inner) as [[captured rest]|] eqn:Hc.
        -- apply until_close_em_length in Hc.
           f_equal. apply IH; lia.
        -- apply IH; lia.
      * apply IH; lia.
Qed.

(** The scan for [<em>] never runs out of fuel: any fuel from the length of
    the text on gives the same matches. *)
Lemma findall_em_fuel_enough (fuel : nat) (s : string) :
  (String.length s <= fuel)%nat -> findall_em_fuel fuel s = findall_em s.
Proof. intros H. unfold findall_em. by apply findall_em_fuel_irrelevant. Qed.

(** What [list(set(...))] gives has no duplicates. *)
Lemma extract_matched_keywords_NoDup (highlight : list (string * list string)) :
  NoDup (extract_matched_keywords highlight).
Proof. unfold extract_matched_keywords. apply NoDup_elements. Qed.

(** [find_matched_keywords] keeps terms of the list it is given, in their
    order: it has no duplicates when the expanded terms have none. *)
Lemma find_matched_keywords_NoDup (terms : list string) (hit : Hit) :
  NoDup terms -> NoDup (find_matched_keywords terms hit).
Proof.
  intros H. unfold find_matched_keywords.
  apply NoDup_ListNoDup. apply List.NoDup_filter. by apply NoDup_ListNoDup.
Qed.

(** C4, at a failing input.  The hit p2 has the title "GLC loci", and the
    engine highlights the term in it.  The expanded term "GLC" is found once
    as a substring of the title and once more between the [<em>] tags, and
    [matched_keywords], the concatenation of the two lists, holds it twice.
    The response of the keyword search carries that list. *)
Theorem matched_keywords_duplicate :
  find_matched_keywords ["glaucoma"; "青光眼"; "GLC"] Demo.p2 = ["GLC"] /\
  extract_matched_keywords (hit_highlight_or_empty Demo.p2) = ["GLC"] /\
  matched_keywords (lexical_result "keyword" ["glaucoma"; "青光眼"; "GLC"] Demo.p2)
  = Some ["GLC"; "GLC"] /\
  (exists r, In r (results (search Demo.env Demo.service (Demo.request "keyword" false)))
             /\ id r = "p2" /\ matched_keywords r = Some ["GLC"; "GLC"]) /\
  ~ NoDup ["GLC"; "GLC"].
Proof.
  split; [by vm_compute|]. split; [by vm_compute|]. split; [by vm_compute|].
  split.
  - eexists. split.
    + vm_compute. do 3 right. left. reflexivity.
    + by vm_compute.
  - intros H. apply NoDup_cons_1_1 in H. apply H. by left.
Qed.

(** ** The relevance filter *)

Lemma evaluate_relevance_disabled (E : Env) (query text : string) :
  evaluate_relevance E query text false = (JBool true, JStr "未启用LLM评估").
Proof. done. Qed.

Lemma evaluate_relevance_no_key (E : Env) (query text : string) :
  openai_api_key E = EmptyString ->
  evaluate_relevance E query text true = (JBool true, JStr "未配置OpenAI API").
Proof. unfold evaluate_relevance. by intros ->. Qed.

(** ** The loops over the hits *)

(** The loop of the vector strategy builds a result from every hit judged
    relevant, in the order of the hits. *)
Lemma vector_results_mapM (E : Env) (query : string) (enable_llm : bool)
    (hs : list Hit) :
  vector_results E query enable_llm hs
  = mapM (fun hit => vector_result hit (hit_reason E query enable_llm hit))
         (List.filter (judged_relevant E query enable_llm) hs).
Proof.
  induction hs as [|hit hs IH]; [done|].
  cbn [vector_results List.filter]. unfold judged_relevant at 1.
  destruct (evaluate_relevance E query (eval_text hit) enable_llm) as [rel reason] eqn:Hev.
  cbn [fst]. destruct (truthy rel); [|exact IH].
  cbn [mapM]. unfold hit_reason at 1. rewrite Hev. cbn [snd].
  by rewrite IH.
Qed.

Lemma supplement_results_mapM (E : Env) (query : string) (enable_llm : bool)
    (seen_ids : gset string) (hs : list Hit) :
  supplement_results E query enable_llm seen_ids hs
  = mapM (fun hit => vector_result hit (hit_reason E query enable_llm hit))
         (List.filter (supplement_keeps E query enable_llm seen_ids) hs).
Proof.
  induction hs as [|hit hs IH]; [done|].
  cbn [supplement_results List.filter]. unfold supplement_keeps at 1.
  destruct (bool_decide (hit_id hit ∉ seen_ids) && Qle_bool score_threshold (hit_score hit));
    [|exact IH].
  cbn [andb]. unfold judged_relevant at 1.
  destruct (evaluate_relevance E query (eval_text hit) enable_llm) as [rel reason] eqn:Hev.
  cbn [fst]. destruct (truthy rel); [|exact IH].
  cbn [mapM]. unfold hit_reason at 1. rewrite Hev. cbn [snd].
  by rewrite IH.
Qed.

Lemma vector_result_Ok (hit : Hit) (reason : json) (r : SearchResult) :
  vector_result hit reason = Ok r ->
  from_vector_hit hit r /\ validate_reason reason = Ok (relevance_reason r).
Proof.
  unfold vector_result. intros H.
  apply exc_bind_Ok in H as (o & Ho & H). inversion H; subst.
  by repeat split.
Qed.

Lemma mapM_vector_result_Ok (f : Hit -> json) (hs : list Hit) (rs : list SearchResult) :
  mapM (fun hit => vector_result hit (f hit)) hs = Ok rs ->
  Forall2 (fun hit r => from_vector_hit hit r /\
                        validate_reason (f hit) = Ok (relevance_reason r)) hs rs.
Proof.
  revert rs. induction hs as [|hit hs IH]; intros rs H; simpl in H.
  - inversion H. constructor.
  - apply exc_bind_Ok in H as (r & Hr & H).
    apply exc_bind_Ok in H as (rs' & Hrs & H).
    inversion H; subst.
    constructor; [by apply vector_result_Ok | by apply IH].
Qed.

(** The loop succeeds exactly when the reason of every kept hit is a string
    or null. *)
Lemma mapM_vector_result_valid (f : Hit -> json) (hs : list Hit) :
  Forall (fun hit => exists o, validate_reason (f hit) = Ok o) hs ->
  exists rs, mapM (fun hit => vector_result hit (f hit)) hs = Ok rs.
Proof.
  induction 1 as [|hit hs [o Ho] _ [rs IH]]; simpl; [by eexists|].
  unfold vector_result at 1. rewrite Ho. simpl. rewrite IH. simpl. by eexists.
Qed.

Lemma Forall2_from_vector_hit_ids (hs : list Hit) (rs : list SearchResult)
    (P : Hit -> SearchResult -> Prop) :
  Forall2 (fun hit r => from_vector_hit hit r /\ P hit r) hs rs ->
  map id rs = map hit_id hs /\ map score rs = map hit_score hs /\
  length rs = length hs.
Proof.
  induction 1 as [|hit r hs rs [Hr _] _ (IH1 & IH2 & IH3)]; simpl; [done|].
  destruct Hr as (Hid & _ & _ & _ & Hsc & _).
  by rewrite Hid, Hsc, IH1, IH2, IH3.
Qed.

(** ** The cache step *)

Lemma save_to_cache_fields (self : AsyncPaperSearch) (query : string)
    (request : SearchRequest) (resp : SearchResponse) :
  total (save_to_cache self query request resp) = total resp /\
  results (save_to_cache self query request resp) = results resp /\
  resp_searchType (save_to_cache self query request resp) = resp_searchType resp /\
  rewrittenTerms (save_to_cache self query request resp) = rewrittenTerms resp.
Proof.
  unfold save_to_cache. destruct (cache self) as [save|]; [|done].
  destruct (save _ _ _ _) as [sid|]; [|done].
  by destruct (str_truthy sid).
Qed.

(** ** The vector strategy *)

Lemma search_body_vector (E : Env) (self : AsyncPaperSearch) (request : SearchRequest)
    f g q terms emb response :
  searchType request = "vector" ->
  opensearch_client self = Some f ->
  embedder self = Some g ->
  decoded_query E request = Some q ->
  str_truthy q = true ->
  expand_query E q = Ok terms ->
  g q = Ok emb ->
  f (build_vector_search_query emb terms (page request) (pageSize request)) None
  = Ok response ->
  search_body E self request
  = (rs <- mapM (fun hit => vector_result hit (hit_reason E q (enableLlm request) hit))
                (List.filter (judged_relevant E q (enableLlm request)) (hits response)) ;;;
     Ok (save_to_cache self q request
           {| total := Z.of_nat (length rs); results := rs;
              resp_searchType := searchType request;
              rewrittenTerms := Some terms; search_id := None |})).
Proof.
  intros Ht Hc He Hq Hne Hx Hg Hf.
  unfold search_body. rewrite Hc, Hq, Hne, Hx, Ht. simpl.
  unfold _vector_search, get_embeddings, client_search.
  rewrite He, Hc, Hg. simpl. rewrite Hf. simpl.
  by rewrite vector_results_mapM, Ht.
Qed.

(** C5: in a vector search whose collaborators answer, every hit of the
    engine goes through the relevance filter; the results of the response
    are built, in order, from exactly the hits the filter judged relevant
    (or the response is the empty one, when a reason the LLM gave cannot be
    stored); [total] is the number of results, whatever total the engine
    reported; and with [enableLlm] false the filter lets every hit pass. *)
Theorem vector_search_keeps_relevant_hits (E : Env) (self : AsyncPaperSearch)
    (request : SearchRequest) f g q terms emb response :
  searchType request = "vector" ->
  opensearch_client self = Some f ->
  embedder self = Some g ->
  decoded_query E request = Some q ->
  str_truthy q = true ->
  expand_query E q = Ok terms ->
  g q = Ok emb ->
  f (build_vector_search_query emb terms (page request) (pageSize request)) None
  = Ok response ->
  let r := search E self request in
  let kept := List.filter (judged_relevant E q (enableLlm request)) (hits response) in
  total r = Z.of_nat (length (results r)) /\
  (r = empty_response request \/ Forall2 from_vector_hit kept (results r)) /\
  (Forall (fun hit => exists o,
             validate_reason (hit_reason E q (enableLlm request) hit) = Ok o) kept ->
   Forall2 from_vector_hit kept (results r) /\
   total r = Z.of_nat (length kept)) /\
  (enableLlm request = false ->
   kept = hits response /\
   Forall2 from_vector_hit (hits response) (results r) /\
   total r = Z.of_nat (length (hits response))).
Proof.
  intros Ht Hc He Hq Hne Hx Hg Hf r kept.
  pose proof (search_body_vector E self request f g q terms emb response
                Ht Hc He Hq Hne Hx Hg Hf) as Hbody.
  fold kept in Hbody.
  assert (Hvalid :
    Forall (fun hit => exists o,
              validate_reason (hit_reason E q (enableLlm request) hit) = Ok o) kept ->
    Forall2 from_vector_hit kept (results r) /\ total r = Z.of_nat (length kept)).
  { intros Hv. apply mapM_vector_result_valid in Hv as [rs Hrs].
    subst r. unfold search. rewrite Hbody, Hrs. simpl.
    destruct (save_to_cache_fields self q request
                {| total := Z.of_nat (length rs); results := rs;
                   resp_searchType := searchType request;
                   rewrittenTerms := Some terms; search_id := None |})
      as (-> & -> & _). simpl.
    apply mapM_vector_result_Ok in Hrs.
    split.
    - eapply Forall2_impl; [exact Hrs|]. by intros ? ? [? _].
    - apply Forall2_length in Hrs. by rewrite Hrs. }
  split; [|split; [|split; [exact Hvalid|]]].
  - subst r. unfold search. rewrite Hbody.
    destruct (mapM _ kept) as [rs|msg]; simpl; [|done].
    by destruct (save_to_cache_fields self q request
                   {| total := Z.of_nat (length rs); results := rs;
                      resp_searchType := searchType request;
                      rewrittenTerms := Some terms; search_id := None |})
      as (-> & -> & _).
  - destruct (mapM (fun hit => vector_result hit (hit_reason E q (enableLlm request) hit))
                   kept) as [rs|msg] eqn:Hrs.
    + right. apply Hvalid.
      apply mapM_vector_result_Ok in Hrs.
      clear -Hrs. induction Hrs as [|hit x hs rs [_ Hx] _ IH]; constructor; eauto.
    + left. subst r. unfold search. by rewrite Hbody.
  - intros Hoff.
    assert (Hkept : kept = hits response).
    { subst kept. rewrite Hoff. apply forallb_filter_id.
      apply forallb_forall. by intros hit _. }
    split; [exact Hkept|].
    rewrite <- Hkept. apply Hvalid.
    apply Forall_forall. intros hit _. unfold hit_reason. rewrite Hoff.
    by eexists.
Qed.

Lemma vector_search_keeps_relevant_hits_witness :
  map id (results (search Demo.env Demo.service (Demo.request "vector" true)))
  = ["p3"; "p5"] /\
  total (search Demo.env Demo.service (Demo.request "vector" true))
  = Z.of_nat (length (results (search Demo.env Demo.service (Demo.request "vector" true)))).
Proof.
  split; [reflexivity|].
  exact (proj1 (vector_search_keeps_relevant_hits
                  Demo.env Demo.service (Demo.request "vector" true)
                  Demo.engine Demo.embed "glaucoma" ["glaucoma"; "青光眼"; "GLC"]
                  [1 # 2; 1 # 4]
                  {| hits := [Demo.p3; Demo.p4; Demo.p5]; hits_total_value := 3 |}
                  eq_refl eq_refl eq_refl eq_refl eq_refl eq_refl eq_refl eq_refl)).
Defined.

(** ** Supplementation *)

Lemma maybe_rerank_perm (E : Env) (self : AsyncPaperSearch) (query : string)
    (results : list SearchResult) :
  Permutation (map forget_score (maybe_rerank E self query results))
              (map forget_score results).
Proof.
  unfold maybe_rerank. destruct (ENABLE_RERANK E); [|done].
  destruct (reranker self) as [rr|]; [|done].
  destruct results as [|r results]; [done|].
  apply rerank_results_perm.
Qed.

Lemma maybe_rerank_length (E : Env) (self : AsyncPaperSearch) (query : string)
    (results : list SearchResult) :
  length (maybe_rerank E self query results) = length results.
Proof.
  rewrite <- (length_map forget_score (maybe_rerank _ _ _ _)).
  rewrite (Permutation_length (maybe_rerank_perm E self query results)).
  apply length_map.
Qed.



(** ** The order of the scores *)

Lemma filter_sorted {A : Type} (R : A -> A -> Prop) (p : A -> bool) (l : list A) :
  StronglySorted R l -> StronglySorted R (List.filter p l).
Proof.
  induction 1 as [|x l Hl IH Hx]; simpl; [constructor|].
  destruct (p x); [|done].
  constructor; [done|].
  apply Forall_forall. intros y Hy.
  apply list_elem_of_In, filter_In in Hy as [Hy _].
  rewrite Forall_forall in Hx. apply Hx. by apply list_elem_of_In.
Qed.

Lemma maybe_rerank_sorted (E : Env) (self : AsyncPaperSearch) (query : string)
    (results : list SearchResult) :
  StronglySorted (desc score) results ->
  StronglySorted (desc score) (maybe_rerank E self query results).
Proof.
  intros Hs. unfold maybe_rerank.
  destruct (ENABLE_RERANK E); [|done].
  destruct (reranker self) as [rr|]; [|done].
  destruct results as [|r results]; [done|].
  unfold _rerank_results.
  destruct (rerank E rr query (map title (r :: results))); [done|].
  apply sort_desc_sorted.
Qed.

Lemma lexical_results_scores (src : string) (terms : list string) (hs : list Hit) :
  map score (map (lexical_result src terms) hs) = map hit_score hs.
Proof. by rewrite map_map. Qed.

Lemma client_search_sorted (self : AsyncPaperSearch) body pipeline response :
  engine_sorted self ->
  client_search self body pipeline = Ok response ->
  non_increasing (map hit_score (hits response)).
Proof.
  intros Hs H. unfold client_search in H.
  destruct (opensearch_client self) as [f|] eqn:Hc; [|done].
  by apply (Hs f body pipeline).
Qed.

Lemma hybrid_search_sorted (E : Env) (self : AsyncPaperSearch) query terms request r :
  engine_sorted self ->
  _hybrid_search E self query terms request = Ok r ->
  non_increasing (map score (results r)).
Proof.
  intros Hs H. unfold _hybrid_search in H.
  destruct (embedder self); [|done].
  apply exc_bind_Ok in H as (emb & _ & H).
  apply exc_bind_Ok in H as (response & Hresp & H).
  inversion H; subst; clear H.
  destruct (save_to_cache_fields self query request
              {| total := hits_total_value response;
                 results := maybe_rerank E self query
                              (map (lexical_result "hybrid" terms) (hits response));
                 resp_searchType := searchType request;
                 rewrittenTerms := Some terms; search_id := None |})
    as (_ & -> & _). simpl.
  apply sorted_non_increasing, maybe_rerank_sorted, non_increasing_sorted.
  rewrite lexical_results_scores. by eapply client_search_sorted.
Qed.

Lemma vector_search_sorted (E : Env) (self : AsyncPaperSearch) query terms request r :
  engine_sorted self ->
  _vector_search E self query terms request = Ok r ->
  non_increasing (map score (results r)).
Proof.
  intros Hs H. unfold _vector_search in H.
  destruct (embedder self); [|done].
  apply exc_bind_Ok in H as (emb & _ & H).
  apply exc_bind_Ok in H as (response & Hresp & H).
  apply exc_bind_Ok in H as (rs & Hrs & H).
  inversion H; subst; clear H.
  destruct (save_to_cache_fields self query request
              {| total := Z.of_nat (length rs); results := rs;
                 resp_searchType := searchType request;
                 rewrittenTerms := Some terms; search_id := None |})
    as (_ & -> & _). simpl.
  rewrite vector_results_mapM in Hrs.
  apply mapM_vector_result_Ok, Forall2_from_vector_hit_ids in Hrs as (_ & -> & _).
  apply sorted_non_increasing, filter_sorted, non_increasing_sorted.
  by eapply client_search_sorted.
Qed.

Lemma keyword_search_sorted (E : Env) (self : AsyncPaperSearch) query terms request r :
  engine_sorted self ->
  _keyword_search E self query terms request = Ok r ->
  non_increasing (map score (results r)).
Proof.
  intros Hs H. unfold _keyword_search in H.
  apply exc_bind_Ok in H as (response & Hresp & H).
  apply exc_bind_Ok in H as (rs & Hrs & H).
  inversion H; subst; clear H.
  destruct (save_to_cache_fields self query request
              {| total := Z.of_nat (length (maybe_rerank E self query rs));
                 results := maybe_rerank E self query rs;
                 resp_searchType := searchType request;
                 rewrittenTerms := Some terms; search_id := None |})
    as (_ & -> & _). simpl.
  apply sorted_non_increasing, maybe_rerank_sorted.
  unfold maybe_supplement in Hrs.
  assert (Hplain : StronglySorted (desc score)
                     (map (lexical_result "keyword" terms) (hits response))).
  { apply non_increasing_sorted. rewrite lexical_results_scores.
    by eapply client_search_sorted. }
  destruct (Z.of_nat _ <? 10000)%Z; [|by inversion Hrs; subst].
  destruct (embedder self); [|by inversion Hrs; subst].
  unfold _supplement_with_vector_search in Hrs.
  apply exc_bind_Ok in Hrs as (emb & _ & Hrs).
  apply exc_bind_Ok in Hrs as (vresponse & _ & Hrs).
  apply exc_bind_Ok in Hrs as (sup & _ & Hrs).
  inversion Hrs; subst. apply sort_desc_sorted.
Qed.

(** C6: when the engine returns its hits by descending score, the scores of
    the results of every response of [search] never increase along the
    list: for the keyword strategy with and without supplementation, for the
    vector strategy, for the hybrid strategy, with and without reranking,
    and for the empty response. *)
Theorem search_scores_non_increasing (E : Env) (self : AsyncPaperSearch)
    (request : SearchRequest) :
  engine_sorted self ->
  non_increasing (map score (results (search E self request))).
Proof.
  intros Hs.
  destruct (search_body_cases E self request) as [Hbody | ->]; [|constructor].
  revert Hbody. generalize (search E self request) as r. intros r Hbody.
  unfold search_body in Hbody.
  destruct (opensearch_client self) eqn:Hc; [|done].
  destruct (decoded_query E request) as [q|];
    [|inversion Hbody; subst; constructor].
  destruct (str_truthy q); simpl in Hbody;
    [|inversion Hbody; subst; constructor].
  apply exc_bind_Ok in Hbody as (terms & _ & Hbody).
  destruct (String.eqb (searchType request) "hybrid");
    [by eapply hybrid_search_sorted|].
  destruct (String.eqb (searchType request) "vector");
    [by eapply vector_search_sorted | by eapply keyword_search_sorted].
Qed.

Lemma demo_engine_sorted : engine_sorted Demo.service_with_reranker.
Proof.
  intros f body pipeline response Hf Hresp.
  inversion Hf; subst f; clear Hf.
  unfold Demo.engine in Hresp.
  destruct (body_query body); inversion Hresp; subst; simpl;
    repeat constructor; by vm_compute.
Defined.

Lemma search_scores_non_increasing_witness :
  non_increasing
    (map score (results (search Demo.env Demo.service_with_reranker
                                (Demo.request "keyword" true)))).
Proof.
  exact (search_scores_non_increasing Demo.env Demo.service_with_reranker
           (Demo.request "keyword" true) demo_engine_sorted).
Defined.

(** ** The relevance filter fails open *)

Lemma evaluate_relevance_call_failure (E : Env) (query text reason : string) :
  str_truthy (openai_api_key E) = true ->
  call_failure E query text reason ->
  evaluate_relevance E query text true = (JBool true, JStr reason).
Proof.
  intros Hkey Hfail. unfold evaluate_relevance. rewrite Hkey. simpl.
  destruct Hfail as [msg Hc | content Hc Hj | content Hc Hj
                    | content json_str Hc Hj Hne Hl
                    | content json_str v msg Hc Hj Hne Hl Hget];
    rewrite Hc; simpl; try done.
  - by rewrite Hj.
  - by rewrite Hj.
  - by rewrite Hj, Hne, Hl.
  - rewrite Hj, Hne, Hl. simpl. by rewrite Hget.
Qed.




(** ** What supplementation adds *)

(** Every result of the supplementation loop carries the source "vector"
    and no matched keywords; its reason is the one the evaluation returned,
    and with [enable_llm] false it is the fixed text. *)
Lemma supplement_results_shape (E : Env) (query : string) (enable_llm : bool)
    (seen_ids : gset string) (hs : list Hit) (sup : list SearchResult) :
  supplement_results E query enable_llm seen_ids hs = Ok sup ->
  Forall (fun r => source r = Some "vector" /\ matched_keywords r = None /\
                   (enable_llm = false ->
                    relevance_reason r = Some "未启用LLM评估")) sup.
Proof.
  rewrite supplement_results_mapM. intros H.
  apply mapM_vector_result_Ok in H.
  induction H as [|hit r hs' rs [Hr Hv] _ IH]; constructor; [|exact IH].
  destruct Hr as (_ & _ & _ & _ & _ & Hsrc & Hmk).
  split; [done|]. split; [done|].
  intros ->. unfold hit_reason in Hv. simpl in Hv. by inversion Hv.
Qed.

(** The lexical hits carry their own source, matched keywords and no
    reason, so that the two kinds of result can be told apart. *)
Lemma lexical_result_shape (src : string) (terms : list string) (hit : Hit) :
  source (lexical_result src terms hit) = Some src /\
  (exists l, matched_keywords (lexical_result src terms hit) = Some l) /\
  relevance_reason (lexical_result src terms hit) = None.
Proof. split; [done|]. split; [by eexists | done]. Qed.

(** C10, at a failing input.  The LLM answers with JSON whose reason is
    [null].  [evaluate_relevance] passes the null on in place of the string
    its annotation promises, and the result that supplementation adds for
    the hit p3 carries the source "vector", no matched keywords, and no
    relevance reason either. *)
Theorem supplemented_result_null_reason :
  evaluate_relevance Demo.env_null_reason "glaucoma" (eval_text Demo.p3) true
  = (JBool true, JNull) /\
  exists r,
    In r (results (search Demo.env_null_reason Demo.service
                          (Demo.request "keyword" true))) /\
    id r = "p3" /\ source r = Some "vector" /\
    matched_keywords r = None /\ relevance_reason r = None.
Proof.
  split; [by vm_compute|].
  eexists. split.
  - vm_compute. right. left. reflexivity.
  - by vm_compute.
Qed.

(** * Further properties of the orchestration *)

(** ** The shape of what the strategies return *)

Lemma exc_bind_Ok_iff {A B : Type} (m : exc A) (k : A -> exc B) (b : B) :
  exc_bind m k = Ok b <-> exists a, m = Ok a /\ k a = Ok b.
Proof.
  split; [apply exc_bind_Ok|]. by intros (a & -> & H).
Qed.

Lemma hybrid_search_Ok (E : Env) (self : AsyncPaperSearch) query terms request r :
  _hybrid_search E self query terms request = Ok r ->
  exists emb response,
    get_embeddings self query = Ok emb /\
    client_search self
      (build_hybrid_search_query terms emb (page request) (pageSize request))
      (Some "nlp-search-pipeline") = Ok response /\
    r = save_to_cache self query request
          {| total := hits_total_value response;
             results := maybe_rerank E self query
                          (map (lexical_result "hybrid" terms) (hits response));
             resp_searchType := searchType request;
             rewrittenTerms := Some terms; search_id := None |}.
Proof.
  unfold _hybrid_search. destruct (embedder self) eqn:He; [|done].
  intros H.
  apply exc_bind_Ok in H as (emb & Hemb & H).
  apply exc_bind_Ok in H as (response & Hresp & H).
  inversion H; subst. by exists emb, response.
Qed.

Lemma vector_search_Ok (E : Env) (self : AsyncPaperSearch) query terms request r :
  _vector_search E self query terms request = Ok r ->
  exists emb response rs,
    get_embeddings self query = Ok emb /\
    client_search self
      (build_vector_search_query emb terms (page request) (pageSize request))
      None = Ok response /\
    vector_results E query (enableLlm request) (hits response) = Ok rs /\
    r = save_to_cache self query request
          {| total := Z.of_nat (length rs); results := rs;
             resp_searchType := searchType request;
             rewrittenTerms := Some terms; search_id := None |}.
Proof.
  unfold _vector_search. destruct (embedder self) eqn:He; [|done].
  intros H.
  apply exc_bind_Ok in H as (emb & Hemb & H).
  apply exc_bind_Ok in H as (response & Hresp & H).
  apply exc_bind_Ok in H as (rs & Hrs & H).
  inversion H; subst. by exists emb, response, rs.
Qed.

Lemma keyword_search_Ok (E : Env) (self : AsyncPaperSearch) query terms request r :
  _keyword_search E self query terms request = Ok r ->
  exists response rs,
    client_search self
      (build_keyword_search_query terms (page request) (pageSize request))
      None = Ok response /\
    maybe_supplement E self query terms
      (map (lexical_result "keyword" terms) (hits response))
      (keyword_seen_ids response) request = Ok rs /\
    r = save_to_cache self query request
          {| total := Z.of_nat (length (maybe_rerank E self query rs));
             results := maybe_rerank E self query rs;
             resp_searchType := searchType request;
             rewrittenTerms := Some terms; search_id := None |}.
Proof.
  unfold _keyword_search. intros H.
  apply exc_bind_Ok in H as (response & Hresp & H).
  apply exc_bind_Ok in H as (rs & Hrs & H).
  inversion H; subst. by exists response, rs.
Qed.

(** What [search] returns is the empty response or the response of the
    strategy its [searchType] selects, run on the decoded query and its
    expansion. *)
Lemma search_cases (E : Env) (self : AsyncPaperSearch) (request : SearchRequest) :
  search E self request = empty_response request \/
  exists q terms,
    decoded_query E request = Some q /\ str_truthy q = true /\
    expand_query E q = Ok terms /\
    ((searchType request = "hybrid" /\
      _hybrid_search E self q terms request = Ok (search E self request)) \/
     (searchType request = "vector" /\
      _vector_search E self q terms request = Ok (search E self request)) \/
     (searchType request <> "hybrid" /\ searchType request <> "vector" /\
      _keyword_search E self q terms request = Ok (search E self request))).
Proof.
  destruct (search_body_cases E self request) as [Hbody | ?]; [|by left].
  revert Hbody. generalize (search E self request) as r. intros r Hbody.
  unfold search_body in Hbody.
  destruct (opensearch_client self); [|done].
  destruct (decoded_query E request) as [q|]; [|inversion Hbody; by left].
  destruct (str_truthy q) eqn:Hq; simpl in Hbody; [|inversion Hbody; by left].
  apply exc_bind_Ok in Hbody as (terms & Hterms & Hbody).
  right. exists q, terms. repeat (split; [done|]).
  destruct (String.eqb_spec (searchType request) "hybrid") as [Hh|Hh]; [by left|].
  destruct (String.eqb_spec (searchType request) "vector") as [Hv|Hv];
    [by right; left | by right; right].
Qed.

(** ** What every response has *)

Lemma search_strategy_fields (E : Env) (self : AsyncPaperSearch) (q : string)
    (terms : list string) (request : SearchRequest) (r : SearchResponse) :
  _hybrid_search E self q terms request = Ok r \/
  _vector_search E self q terms request = Ok r \/
  _keyword_search E self q terms request = Ok r ->
  resp_searchType r = searchType request /\ rewrittenTerms r = Some terms.
Proof.
  intros [H | [H | H]].
  - apply hybrid_search_Ok in H as (emb & response & _ & _ & ->).
    by destruct (save_to_cache_fields self q request
                   {| total := hits_total_value response;
                      results := maybe_rerank E self q
                                   (map (lexical_result "hybrid" terms) (hits response));
                      resp_searchType := searchType request;
                      rewrittenTerms := Some terms; search_id := None |})
      as (_ & _ & -> & ->).
  - apply vector_search_Ok in H as (emb & response & rs & _ & _ & _ & ->).
    by destruct (save_to_cache_fields self q request
                   {| total := Z.of_nat (length rs); results := rs;
                      resp_searchType := searchType request;
                      rewrittenTerms := Some terms; search_id := None |})
      as (_ & _ & -> & ->).
  - apply keyword_search_Ok in H as (response & rs & _ & _ & ->).
    by destruct (save_to_cache_fields self q request
                   {| total := Z.of_nat (length (maybe_rerank E self q rs));
                      results := maybe_rerank E self q rs;
                      resp_searchType := searchType request;
                      rewrittenTerms := Some terms; search_id := None |})
      as (_ & _ & -> & ->).
Qed.

(** X1.  Whatever the request and whatever the collaborators do, the
    response of [search] carries the [searchType] of the request, and its
    rewritten terms are either absent, in the empty response, or the terms
    the query expansion returned for the decoded query. *)
Theorem search_echoes_request (E : Env) (self : AsyncPaperSearch)
    (request : SearchRequest) :
  resp_searchType (search E self request) = searchType request /\
  (rewrittenTerms (search E self request) = None /\
   search E self request = empty_response request \/
   exists q terms,
     decoded_query E request = Some q /\ expand_query E q = Ok terms /\
     rewrittenTerms (search E self request) = Some terms).
Proof.
  destruct (search_cases E self request)
    as [-> | (q & terms & Hq & _ & Hterms & Hcase)]; [by split; [|left]|].
  destruct (search_strategy_fields E self q terms request (search E self request))
    as [H1 H2].
  { destruct Hcase as [[_ H] | [[_ H] | (_ & _ & H)]]; auto. }
  split; [done|]. right. by exists q, terms.
Qed.

(** X2.  Under every strategy but the hybrid one, [total] is the number of
    results in the response, whatever total the engine reported. *)
Theorem search_total_is_result_count (E : Env) (self : AsyncPaperSearch)
    (request : SearchRequest) :
  searchType request <> "hybrid" ->
  total (search E self request) = Z.of_nat (length (results (search E self request))).
Proof.
  intros Hnh.
  destruct (search_cases E self request)
    as [-> | (q & terms & _ & _ & _ & Hcase)]; [done|].
  destruct Hcase as [[Hh _] | [[_ H] | (_ & _ & H)]]; [done| |].
  - apply vector_search_Ok in H as (emb & response & rs & _ & _ & _ & ->).
    by destruct (save_to_cache_fields self q request
                   {| total := Z.of_nat (length rs); results := rs;
                      resp_searchType := searchType request;
                      rewrittenTerms := Some terms; search_id := None |})
      as (-> & -> & _).
  - apply keyword_search_Ok in H as (response & rs & _ & _ & ->).
    by destruct (save_to_cache_fields self q request
                   {| total := Z.of_nat (length (maybe_rerank E self q rs));
                      results := maybe_rerank E self q rs;
                      resp_searchType := searchType request;
                      rewrittenTerms := Some terms; search_id := None |})
      as (-> & -> & _).
Qed.

Lemma search_total_is_result_count_witness :
  total (search Demo.env Demo.service (Demo.request "keyword" true)) = 3%Z.
Proof.
  exact (search_total_is_result_count Demo.env Demo.service
           (Demo.request "keyword" true) ltac:(discriminate)).
Defined.

(** ** The cache step leaves the response alone *)

Lemma save_to_cache_clear (self : AsyncPaperSearch) (query : string)
    (request : SearchRequest) (r0 : SearchResponse) :
  search_id r0 = None ->
  clear_search_id (save_to_cache self query request r0) = r0.
Proof.
  intros Hid. unfold save_to_cache.
  destruct (cache self) as [save|]; [|by destruct r0; simpl in *; subst].
  destruct (save _ _ _ _) as [sid|]; [|by destruct r0; simpl in *; subst].
  destruct (str_truthy sid); by destruct r0; simpl in *; subst.
Qed.

Lemma save_to_cache_search_id (self : AsyncPaperSearch) (query : string)
    (request : SearchRequest) (r0 : SearchResponse) (sid : string) :
  search_id r0 = None ->
  search_id (save_to_cache self query request r0) = Some sid ->
  str_truthy sid = true /\
  exists save, cache self = Some save /\
               save query (searchType request) r0 (enableLlm request) = Some sid.
Proof.
  intros Hid. unfold save_to_cache.
  destruct (cache self) as [save|]; [|congruence].
  destruct (save _ _ _ _) as [sid'|] eqn:Hsave; [|congruence].
  destruct (str_truthy sid') eqn:Ht; [|congruence].
  simpl. intros [= ->]. split; [done|]. by exists save.
Qed.

(** Each strategy, run without a cache, builds the response that the run
    with the cache hands to [save_search_result]. *)
Lemma strategy_without_cache (E : Env) (self : AsyncPaperSearch)
    (request : SearchRequest) (q : string) (terms : list string) (r : SearchResponse) :
  (if String.eqb (searchType request) "hybrid" then
     _hybrid_search E self q terms request
   else if String.eqb (searchType request) "vector" then
     _vector_search E self q terms request
   else _keyword_search E self q terms request) = Ok r ->
  exists r0,
    (if String.eqb (searchType request) "hybrid" then
       _hybrid_search E (without_cache self) q terms request
     else if String.eqb (searchType request) "vector" then
       _vector_search E (without_cache self) q terms request
     else _keyword_search E (without_cache self) q terms request) = Ok r0 /\
    search_id r0 = None /\
    r = save_to_cache self q request r0.
Proof.
  destruct (String.eqb (searchType request) "hybrid").
  { intros H. pose proof H as H'.
    apply hybrid_search_Ok in H' as (emb & response & Hemb & Hresp & ->).
    eexists. split; [|split; [|reflexivity]]; [|done].
    unfold _hybrid_search in *. simpl.
    destruct (embedder self); [|done].
    change (get_embeddings (without_cache self) q) with (get_embeddings self q).
    rewrite Hemb. simpl.
    change (client_search (without_cache self)) with (client_search self).
    rewrite Hresp. simpl. reflexivity. }
  destruct (String.eqb (searchType request) "vector").
  { intros H. pose proof H as H'.
    apply vector_search_Ok in H' as (emb & response & rs & Hemb & Hresp & Hrs & ->).
    eexists. split; [|split; [|reflexivity]]; [|done].
    unfold _vector_search in *. simpl.
    destruct (embedder self); [|done].
    change (get_embeddings (without_cache self) q) with (get_embeddings self q).
    rewrite Hemb. simpl.
    change (client_search (without_cache self)) with (client_search self).
    rewrite Hresp. simpl. rewrite Hrs. simpl. reflexivity. }
  intros H. pose proof H as H'.
  apply keyword_search_Ok in H' as (response & rs & Hresp & Hrs & ->).
  eexists. split; [|split; [|reflexivity]]; [|done].
  unfold _keyword_search in *.
  change (client_search (without_cache self)) with (client_search self).
  rewrite Hresp. simpl.
  change (maybe_supplement E (without_cache self)) with (maybe_supplement E self).
  fold (keyword_seen_ids response). rewrite Hrs. simpl. reflexivity.
Qed.

Lemma strategy_without_cache_Raise (E : Env) (self : AsyncPaperSearch)
    (request : SearchRequest) (q : string) (terms : list string) (msg : string) :
  (if String.eqb (searchType request) "hybrid" then
     _hybrid_search E self q terms request
   else if String.eqb (searchType request) "vector" then
     _vector_search E self q terms request
   else _keyword_search E self q terms request) = Raise msg ->
  exists msg',
    (if String.eqb (searchType request) "hybrid" then
       _hybrid_search E (without_cache self) q terms request
     else if String.eqb (searchType request) "vector" then
       _vector_search E (without_cache self) q terms request
     else _keyword_search E (without_cache self) q terms request) = Raise msg'.
Proof.
  destruct (String.eqb (searchType request) "hybrid").
  { unfold _hybrid_search. simpl. destruct (embedder self); [|by eexists].
    change (get_embeddings (without_cache self) q) with (get_embeddings self q).
    destruct (get_embeddings self q); simpl; [|by eexists].
    change (client_search (without_cache self)) with (client_search self).
    destruct (client_search self _ _); simpl; [done | by eexists]. }
  destruct (String.eqb (searchType request) "vector").
  { unfold _vector_search. simpl. destruct (embedder self); [|by eexists].
    change (get_embeddings (without_cache self) q) with (get_embeddings self q).
    destruct (get_embeddings self q); simpl; [|by eexists].
    change (client_search (without_cache self)) with (client_search self).
    destruct (client_search self _ _); simpl; [|by eexists].
    destruct (vector_results _ _ _ _); simpl; [done | by eexists]. }
  unfold _keyword_search.
  change (client_search (without_cache self)) with (client_search self).
  destruct (client_search self _ _); simpl; [|by eexists].
  change (maybe_supplement E (without_cache self)) with (maybe_supplement E self).
  destruct (maybe_supplement _ _ _ _ _ _ _); simpl; [done | by eexists].
Qed.


(** ** The source of a result *)

Lemma Forall_forget_perm (P : SearchResult -> Prop) (l l' : list SearchResult) :
  (forall s r, P r -> P (set_score s r)) ->
  Permutation (map forget_score l) (map forget_score l') ->
  Forall P l' -> Forall P l.
Proof.
  intros Hset Hperm Hl'.
  assert (Hf : Forall (fun r => P (forget_score r)) l).
  { apply (proj1 (List.Forall_map forget_score P l)).
    eapply Permutation_Forall; [symmetry; exact Hperm|].
    apply (proj2 (List.Forall_map forget_score P l')).
    eapply Forall_impl; [exact Hl'|]. intros r Hr. by apply Hset. }
  eapply Forall_impl; [exact Hf|].
  intros r Hr. apply (Hset (score r)) in Hr. by destruct r.
Qed.

Lemma maybe_rerank_Forall (P : SearchResult -> Prop) (E : Env)
    (self : AsyncPaperSearch) (query : string) (results : list SearchResult) :
  (forall s r, P r -> P (set_score s r)) ->
  Forall P results -> Forall P (maybe_rerank E self query results).
Proof.
  intros Hset. apply Forall_forget_perm; [done|]. apply maybe_rerank_perm.
Qed.

Lemma lexical_results_lexical (src : string) (terms : list string) (hs : list Hit) :
  Forall (is_lexical src) (map (lexical_result src terms) hs).
Proof.
  apply Forall_forall. intros r Hr.
  apply list_elem_of_In, in_map_iff in Hr as (hit & <- & _).
  split; [done|]. split; [done | by eexists].
Qed.

Lemma vector_results_vector (E : Env) (query : string) (enable_llm : bool)
    (hs : list Hit) (rs : list SearchResult) :
  vector_results E query enable_llm hs = Ok rs -> Forall is_vector rs.
Proof.
  rewrite vector_results_mapM. intros H.
  apply mapM_vector_result_Ok in H.
  induction H as [|hit r hs' rs' [Hr _] _ IH]; constructor; [|exact IH].
  by destruct Hr as (_ & _ & _ & _ & _ & Hsrc & Hmk).
Qed.

Lemma maybe_supplement_sources (E : Env) (self : AsyncPaperSearch) query terms
    results seen_ids request rs :
  Forall (is_lexical "keyword") results ->
  maybe_supplement E self query terms results seen_ids request = Ok rs ->
  Forall (fun r => is_lexical "keyword" r \/ is_vector r) rs.
Proof.
  intros Hres H. unfold maybe_supplement in H.
  assert (Hplain : Forall (fun r => is_lexical "keyword" r \/ is_vector r) results).
  { eapply Forall_impl; [exact Hres|]. by left. }
  destruct (Z.of_nat _ <? 10000)%Z; [|by inversion H; subst].
  destruct (embedder self); [|by inversion H; subst].
  unfold _supplement_with_vector_search in H.
  apply exc_bind_Ok in H as (emb & _ & H).
  apply exc_bind_Ok in H as (vresponse & _ & H).
  apply exc_bind_Ok in H as (sup & Hsup & H).
  inversion H; subst.
  eapply Permutation_Forall; [apply sort_desc_perm|].
  apply Forall_app. split; [done|].
  apply supplement_results_shape in Hsup.
  eapply Forall_impl; [exact Hsup|].
  intros r (Hs & Hm & _). by right.
Qed.

(** X4.  The results of a response tell the strategy that built them.
    Under the hybrid strategy every result has the source "hybrid", a list
    of matched keywords and no relevance reason; under the vector strategy
    every result has the source "vector" and no matched keywords; under any
    other [searchType] every result is a keyword hit (source "keyword",
    matched keywords, no reason) or a supplemented one (source "vector", no
    matched keywords).  Reranking and the cache step change none of this. *)
Theorem search_result_sources (E : Env) (self : AsyncPaperSearch)
    (request : SearchRequest) :
  Forall (fun r =>
            if String.eqb (searchType request) "hybrid" then is_lexical "hybrid" r
            else if String.eqb (searchType request) "vector" then is_vector r
            else is_lexical "keyword" r \/ is_vector r)
         (results (search E self request)).
Proof.
  destruct (search_cases E self request)
    as [-> | (q & terms & _ & _ & _ & Hcase)]; [constructor|].
  destruct Hcase as [[Hh H] | [[Hv H] | (Hh & Hv & H)]].
  - rewrite Hh. simpl.
    apply hybrid_search_Ok in H as (emb & response & _ & _ & ->).
    destruct (save_to_cache_fields self q request
                {| total := hits_total_value response;
                   results := maybe_rerank E self q
                                (map (lexical_result "hybrid" terms) (hits response));
                   resp_searchType := searchType request;
                   rewrittenTerms := Some terms; search_id := None |})
      as (_ & -> & _). simpl.
    apply maybe_rerank_Forall; [by intros s r | apply lexical_results_lexical].
  - rewrite Hv. simpl.
    apply vector_search_Ok in H as (emb & response & rs & _ & _ & Hrs & ->).
    destruct (save_to_cache_fields self q request
                {| total := Z.of_nat (length rs); results := rs;
                   resp_searchType := searchType request;
                   rewrittenTerms := Some terms; search_id := None |})
      as (_ & -> & _). simpl.
    by eapply vector_results_vector.
  - apply String.eqb_neq in Hh, Hv. rewrite Hh, Hv.
    apply keyword_search_Ok in H as (response & rs & _ & Hrs & ->).
    destruct (save_to_cache_fields self q request
                {| total := Z.of_nat (length (maybe_rerank E self q rs));
                   results := maybe_rerank E self q rs;
                   resp_searchType := searchType request;
                   rewrittenTerms := Some terms; search_id := None |})
      as (_ & -> & _). simpl.
    apply maybe_rerank_Forall; [by intros s r|].
    eapply maybe_supplement_sources; [|exact Hrs].
    apply lexical_results_lexical.
Qed.

(** ** Dispatch on [searchType] *)

Lemma keyword_search_any_type (E : Env) (self : AsyncPaperSearch) query terms
    request st :
  match _keyword_search E self query terms request,
        _keyword_search E self query terms (with_search_type st request) with
  | Ok r, Ok r' =>
      total r = total r' /\ results r = results r' /\
      rewrittenTerms r = rewrittenTerms r'
  | Raise _, Raise _ => True
  | _, _ => False
  end.
Proof.
  unfold _keyword_search. simpl.
  destruct (client_search self _ _) as [response|]; simpl; [|done].
  change (maybe_supplement E self query terms
            (map (lexical_result "keyword" terms) (hits response))
            (list_to_set (map hit_id (hits response)))
            (with_search_type st request))
    with (maybe_supplement E self query terms
            (map (lexical_result "keyword" terms) (hits response))
            (list_to_set (map hit_id (hits response))) request).
  destruct (maybe_supplement _ _ _ _ _ _ _) as [rs|]; simpl; [|done].
  destruct (save_to_cache_fields self query request
              {| total := Z.of_nat (length (maybe_rerank E self query rs));
                 results := maybe_rerank E self query rs;
                 resp_searchType := searchType request;
                 rewrittenTerms := Some terms; search_id := None |})
    as (-> & -> & _ & ->).
  by destruct (save_to_cache_fields self query (with_search_type st request)
                 {| total := Z.of_nat (length (maybe_rerank E self query rs));
                    results := maybe_rerank E self query rs;
                    resp_searchType := st;
                    rewrittenTerms := Some terms; search_id := None |})
    as (-> & -> & _ & ->).
Qed.

(** X5.  [searchType] is not validated: a request whose [searchType] is
    neither "hybrid" nor "vector" is served by the keyword strategy, with
    the total, the results and the rewritten terms of the same request sent
    as "keyword"; only the echoed [searchType] differs. *)
Theorem search_unknown_type_is_keyword (E : Env) (self : AsyncPaperSearch)
    (request : SearchRequest) :
  searchType request <> "hybrid" ->
  searchType request <> "vector" ->
  total (search E self request)
  = total (search E self (with_search_type "keyword" request)) /\
  results (search E self request)
  = results (search E self (with_search_type "keyword" request)) /\
  rewrittenTerms (search E self request)
  = rewrittenTerms (search E self (with_search_type "keyword" request)) /\
  resp_searchType (search E self request) = searchType request.
Proof.
  intros Hh Hv.
  assert (Htype : resp_searchType (search E self request) = searchType request).
  { destruct (search_cases E self request)
      as [-> | (q & terms & _ & _ & _ & Hcase)]; [done|].
    apply (search_strategy_fields E self q terms request).
    destruct Hcase as [[_ H] | [[_ H] | (_ & _ & H)]]; auto. }
  split; [|split; [|split; [|exact Htype]]]; clear Htype;
    unfold search, search_body; simpl;
    change (decoded_query E (with_search_type "keyword" request))
      with (decoded_query E request);
    apply String.eqb_neq in Hh, Hv; rewrite Hh, Hv;
    (destruct (opensearch_client self); [|done]);
    (destruct (decoded_query E request) as [q|]; [|done]);
    (destruct (str_truthy q); [|done]); simpl;
    (destruct (expand_query E q) as [terms|]; [|done]); simpl;
    pose proof (keyword_search_any_type E self q terms request "keyword") as H;
    destruct (_keyword_search E self q terms request),
             (_keyword_search E self q terms (with_search_type "keyword" request));
    simpl; try done; by destruct H as (? & ? & ?).
Qed.

Lemma search_unknown_type_is_keyword_witness :
  results (search Demo.env Demo.service (Demo.request "fulltext" true))
  = results (search Demo.env Demo.service
                    (with_search_type "keyword" (Demo.request "fulltext" true))).
Proof.
  exact (proj1 (proj2 (search_unknown_type_is_keyword Demo.env Demo.service
                         (Demo.request "fulltext" true)
                         ltac:(discriminate) ltac:(discriminate)))).
Defined.

(** ** The keyword strategy without supplementation *)

(** X6.  Without an embedder, or with 10000 keyword hits or more, the
    keyword strategy asks the engine once and supplements nothing: the
    response holds exactly the engine's hits as keyword results (reordered
    and rescored by reranking when it applies, in the engine's order when it
    does not), and [total] is their number. *)
Theorem keyword_search_without_supplementation (E : Env) (self : AsyncPaperSearch)
    (request : SearchRequest) f query terms response :
  opensearch_client self = Some f ->
  f (build_keyword_search_query terms (page request) (pageSize request)) None
  = Ok response ->
  embedder self = None \/ (10000 <= Z.of_nat (length (hits response)))%Z ->
  exists resp,
    _keyword_search E self query terms request = Ok resp /\
    Permutation (map forget_score (results resp))
                (map forget_score (map (lexical_result "keyword" terms) (hits response))) /\
    Forall (is_lexical "keyword") (results resp) /\
    total resp = Z.of_nat (length (hits response)) /\
    (ENABLE_RERANK E = false \/ reranker self = None ->
     results resp = map (lexical_result "keyword" terms) (hits response)).
Proof.
  intros Hc Hf Hno.
  set (originals := map (lexical_result "keyword" terms) (hits response)).
  assert (Hsup : maybe_supplement E self query terms originals
                   (keyword_seen_ids response) request = Ok originals).
  { unfold maybe_supplement. subst originals. rewrite length_map.
    destruct Hno as [-> | Hge]; [by destruct (_ <? _)%Z|].
    apply Z.ltb_ge in Hge. by rewrite Hge. }
  eexists. split.
  { unfold _keyword_search, client_search. rewrite Hc, Hf. simpl.
    fold originals. fold (keyword_seen_ids response). rewrite Hsup. simpl.
    reflexivity. }
  destruct (save_to_cache_fields self query request
              {| total := Z.of_nat (length (maybe_rerank E self query originals));
                 results := maybe_rerank E self query originals;
                 resp_searchType := searchType request;
                 rewrittenTerms := Some terms; search_id := None |})
    as (-> & -> & _). simpl.
  split; [apply maybe_rerank_perm|].
  split.
  { apply maybe_rerank_Forall; [by intros s r | apply lexical_results_lexical]. }
  split.
  { rewrite maybe_rerank_length. subst originals. by rewrite length_map. }
  intros Hoff. unfold maybe_rerank.
  destruct Hoff as [-> | ->]; [done|]. by destruct (ENABLE_RERANK E).
Qed.

Lemma keyword_search_without_supplementation_witness :
  exists resp,
    _keyword_search Demo.env Demo.service_without_embedder "glaucoma"
                    ["glaucoma"; "青光眼"; "GLC"] (Demo.request "keyword" true) = Ok resp /\
    map id (results resp) = ["p1"; "p2"] /\ total resp = 2%Z.
Proof.
  destruct (keyword_search_without_supplementation
              Demo.env Demo.service_without_embedder (Demo.request "keyword" true)
              Demo.engine "glaucoma" ["glaucoma"; "青光眼"; "GLC"]
              {| hits := [Demo.p1; Demo.p2]; hits_total_value := 2 |}
              eq_refl eq_refl (or_introl eq_refl))
    as (resp & Hk & _ & _ & Htot & Hres).
  exists resp. split; [exact Hk|]. split; [|exact Htot].
  rewrite (Hres (or_intror eq_refl)). reflexivity.
Defined.

(** ** The hybrid strategy *)

(** X7.  A hybrid search whose collaborators answer embeds the decoded
    query, sends the hybrid descriptor through the search pipeline
    "nlp-search-pipeline", and returns one result per hit of the engine, no
    more and no fewer: [total] is the total the engine reported, not the
    number of results, and nothing is supplemented or filtered. *)
Theorem hybrid_search_results (E : Env) (self : AsyncPaperSearch)
    (request : SearchRequest) f g query terms emb response :
  opensearch_client self = Some f ->
  embedder self = Some g ->
  g query = Ok emb ->
  f (build_hybrid_search_query terms emb (page request) (pageSize request))
    (Some "nlp-search-pipeline") = Ok response ->
  exists resp,
    _hybrid_search E self query terms request = Ok resp /\
    total resp = hits_total_value response /\
    length (results resp) = length (hits response) /\
    Permutation (map id (results resp)) (map hit_id (hits response)) /\
    Forall (is_lexical "hybrid") (results resp) /\
    (ENABLE_RERANK E = false \/ reranker self = None ->
     results resp = map (lexical_result "hybrid" terms) (hits response)).
Proof.
  intros Hc He Hg Hf.
  set (originals := map (lexical_result "hybrid" terms) (hits response)).
  eexists. split.
  { unfold _hybrid_search, get_embeddings, client_search.
    rewrite He, Hc, Hg. simpl. rewrite Hf. simpl. fold originals.
    reflexivity. }
  destruct (save_to_cache_fields self query request
              {| total := hits_total_value response;
                 results := maybe_rerank E self query originals;
                 resp_searchType := searchType request;
                 rewrittenTerms := Some terms; search_id := None |})
    as (-> & -> & _). simpl.
  split; [done|].
  split.
  { rewrite maybe_rerank_length. subst originals. by rewrite length_map. }
  split.
  { pose proof (maybe_rerank_perm E self query originals) as Hp.
    apply (Permutation_map id) in Hp. rewrite !map_map in Hp. simpl in Hp.
    subst originals. rewrite map_map in Hp. simpl in Hp. exact Hp. }
  split.
  { apply maybe_rerank_Forall; [by intros s r | apply lexical_results_lexical]. }
  intros Hoff. unfold maybe_rerank.
  destruct Hoff as [-> | ->]; [done|]. by destruct (ENABLE_RERANK E).
Qed.

Lemma hybrid_search_results_witness :
  exists resp,
    _hybrid_search Demo.env Demo.service "glaucoma" ["glaucoma"; "青光眼"; "GLC"]
                   (Demo.request "hybrid" false) = Ok resp /\
    total resp = 57%Z /\ length (results resp) = 2%nat.
Proof.
  destruct (hybrid_search_results
              Demo.env Demo.service (Demo.request "hybrid" false)
              Demo.engine Demo.embed "glaucoma" ["glaucoma"; "青光眼"; "GLC"]
              [1 # 2; 1 # 4]
              {| hits := [Demo.p1; Demo.p3]; hits_total_value := 57 |}
              eq_refl eq_refl eq_refl eq_refl)
    as (resp & Hk & Htot & Hlen & _).
  exists resp. split; [exact Hk|]. split; [exact Htot | exact Hlen].
Defined.

(** ** The reranker *)

Lemma zip_items_Ok (E : Env) (passages : list string) (scores : list json)
    (items : list RerankItem) :
  zip_items E passages scores = Ok items ->
  map rr_text items = take (length scores) passages /\
  length items = Nat.min (length passages) (length scores) /\
  Forall2 (fun sc item => py_float E sc = Ok (rr_score item))
          (take (length passages) scores) items.
Proof.
  revert scores items.
  induction passages as [|p ps IH]; intros [|sc scs] items H; simpl in H;
    try (inversion H; subst; simpl; repeat split; constructor).
  apply exc_bind_Ok in H as (q & Hq & H).
  apply exc_bind_Ok in H as (rest & Hrest & H).
  inversion H; subst. destruct (IH _ _ Hrest) as (IH1 & IH2 & IH3).
  simpl. rewrite IH1, IH2. repeat split. by constructor.
Qed.

Lemma rerank_cases (E : Env) (self : BGEReranker) (query : string)
    (passages : list string) :
  rerank E self query passages = [] \/
  exists scores items,
    zip_items E passages scores = Ok items /\
    rerank E self query passages = sort_desc rr_score items.
Proof.
  unfold rerank. destruct passages as [|p ps]; [by left|].
  unfold try_except.
  destruct (invoke_endpoint self query (p :: ps)) as [body|]; cbn [exc_bind];
    [|by left].
  destruct body as [| | | | |fields]; try (by left).
  destruct (assoc "data" fields) as [data|]; [|by left].
  destruct (py_iter data) as [items|]; cbn [exc_bind]; [|by left].
  destruct (mapM py_item_score items) as [scores|]; cbn [exc_bind]; [|by left].
  destruct (zip_items E (p :: ps) scores) as [res|] eqn:Hz; cbn [exc_bind];
    [|by left].
  right. by exists scores, res.
Qed.

(** X8.  Whatever the endpoint answers, [BGEReranker.rerank] returns at
    most one item per passage, sorted by descending score, each carrying the
    text of one of the passages; for an empty list of passages it returns
    nothing, and so it does when the endpoint raises. *)
Theorem rerank_output (E : Env) (self : BGEReranker) (query : string)
    (passages : list string) :
  (length (rerank E self query passages) <= length passages)%nat /\
  StronglySorted (desc rr_score) (rerank E self query passages) /\
  Forall (fun item => In (rr_text item) passages) (rerank E self query passages) /\
  rerank E self query [] = [] /\
  (forall msg, invoke_endpoint self query passages = Raise msg ->
               rerank E self query passages = []).
Proof.
  split; [|split; [apply rerank_sorted|split; [|split; [done|]]]].
  - destruct (rerank_cases E self query passages)
      as [-> | (scores & items & Hz & ->)]; [simpl; lia|].
    rewrite sort_desc_length.
    apply zip_items_Ok in Hz as (_ & -> & _). lia.
  - destruct (rerank_cases E self query passages)
      as [-> | (scores & items & Hz & ->)]; [constructor|].
    eapply Permutation_Forall; [apply sort_desc_perm|].
    apply zip_items_Ok in Hz as (Htexts & _ & _).
    apply Forall_forall. intros item Hitem.
    assert (Hin : rr_text item ∈ map rr_text items).
    { apply list_elem_of_In, in_map. by apply list_elem_of_In. }
    rewrite Htexts in Hin. apply list_elem_of_In.
    eapply subseteq_take. exact Hin.
  - intros msg Hmsg. unfold rerank. destruct passages; [done|]. by rewrite Hmsg.
Qed.



(** X10.  [_rerank_results] neither adds nor removes a result and changes
    nothing of a result but its score; what it returns is either the list
    it was given, untouched (no scores came back), or a list sorted by
    descending score. *)
Theorem rerank_results_same_results (E : Env) (rr : BGEReranker) (query : string)
    (results : list SearchResult) :
  Permutation (map forget_score (_rerank_results E rr query results))
              (map forget_score results) /\
  length (_rerank_results E rr query results) = length results /\
  (_rerank_results E rr query results = results \/
   StronglySorted (desc score) (_rerank_results E rr query results)) /\
  (rerank E rr query (map title results) = [] ->
   _rerank_results E rr query results = results).
Proof.
  split; [apply rerank_results_perm|].
  split; [apply rerank_results_length|].
  unfold _rerank_results.
  destruct (rerank E rr query (map title results)); [by split; [left|]|].
  split; [right; apply sort_desc_sorted | done].
Qed.

(** X11.  When [rerank] returns a score for every result, [_rerank_results]
    leaves the results in the order they came in: their scores become the
    rerank scores in descending order, first result first, whichever titles
    the model scored high. *)
Theorem rerank_results_order_kept (E : Env) (rr : BGEReranker) (query : string)
    (results : list SearchResult) :
  (length results <= length (rerank E rr query (map title results)))%nat ->
  map id (_rerank_results E rr query results) = map id results /\
  map forget_score (_rerank_results E rr query results) = map forget_score results /\
  map score (_rerank_results E rr query results)
  = map rr_score (take (length results) (rerank E rr query (map title results))) /\
  non_increasing (map score (_rerank_results E rr query results)).
Proof.
  intros Hlen.
  destruct (rerank_results_keeps_order E rr query results Hlen) as [Hid Hsc].
  split; [done|]. split; [|split; [done|]].
  - unfold _rerank_results.
    pose proof (rerank_sorted E rr query (map title results)) as Hs.
    destruct (rerank E rr query (map title results)) as [|item items] eqn:Hrr; [done|].
    rewrite overwrite_scores_zip.
    rewrite sort_desc_sorted_id by (by apply zip_overwrite_sorted).
    apply zip_overwrite_forget.
  - apply sorted_non_increasing.
    unfold _rerank_results.
    destruct (rerank E rr query (map title results)) as [|item items] eqn:Hrr.
    + destruct results; [constructor | simpl in Hlen; lia].
    + apply sort_desc_sorted.
Qed.

Lemma rerank_results_order_kept_witness :
  map id (_rerank_results Demo.env Demo.rerank_model "glaucoma"
                          [Demo.result_a; Demo.result_b])
  = ["A"; "B"].
Proof.
  exact (proj1 (rerank_results_order_kept Demo.env Demo.rerank_model "glaucoma"
                  [Demo.result_a; Demo.result_b] ltac:(vm_compute; lia))).
Defined.

(** ** Ties after supplementation *)



(** ** The relevance evaluation on an answer it can read *)

(** X13.  When the LLM answers with a JSON object, [evaluate_relevance]
    returns the object's [is_relevant] and [reason] as they are; a missing
    [is_relevant] counts as true, so that an answer that gives only a reason
    keeps the candidate, and a missing [reason] becomes the fixed text
    "解析评估原因失败". *)
Theorem evaluate_relevance_reads_json (E : Env) (query text content json_str : string)
    (fields : list (string * json)) :
  str_truthy (openai_api_key E) = true ->
  chat_completion E (relevance_prompt query text) = Ok content ->
  find_json_str (strip content) = Some json_str ->
  str_truthy json_str = true ->
  json_loads E json_str = Some (JObj fields) ->
  evaluate_relevance E query text true
  = (get_or fields "is_relevant" (JBool true),
     get_or fields "reason" (JStr "解析评估原因失败")) /\
  (assoc "is_relevant" fields = None ->
   truthy (fst (evaluate_relevance E query text true)) = true).
Proof.
  intros Hkey Hc Hj Hne Hl.
  assert (Hev : evaluate_relevance E query text true
                = (get_or fields "is_relevant" (JBool true),
                   get_or fields "reason" (JStr "解析评估原因失败"))).
  { unfold evaluate_relevance. rewrite Hkey, Hc. simpl.
    rewrite Hj, Hne, Hl. simpl. unfold get_or.
    by destruct (assoc "is_relevant" fields), (assoc "reason" fields). }
  split; [exact Hev|].
  intros Hmiss. rewrite Hev. unfold get_or. by rewrite Hmiss.
Qed.

Lemma evaluate_relevance_reads_json_witness :
  evaluate_relevance Demo.env "glaucoma" (eval_text Demo.p4) true
  = (JBool false, JStr "off topic").
Proof.
  exact (proj1 (evaluate_relevance_reads_json Demo.env "glaucoma" (eval_text Demo.p4)
                  ("<json>" ++ Demo.json_irrelevant ++ "</json>")
                  Demo.json_irrelevant
                  [("is_relevant", JBool false); ("reason", JStr "off topic")]
                  eq_refl eq_refl eq_refl eq_refl eq_refl)).
Defined.

(** ** Strings *)

Lemma str_app_cons (x : ascii) (a b : string) :
  (String x a ++ b)%string = String x (a ++ b).
Proof. reflexivity. Qed.

Lemma str_app_assoc (a b c : string) : ((a ++ b) ++ c = a ++ (b ++ c))%string.
Proof.
  induction a as [|x a IH]; [done|]. by rewrite !str_app_cons, IH.
Qed.

Lemma str_app_nil_r (a : string) : (a ++ EmptyString = a)%string.
Proof.
  induction a as [|x a IH]; [done|]. by rewrite str_app_cons, IH.
Qed.

Lemma strip_prefix_iff (p s r : string) :
  strip_prefix p s = Some r <-> s = (p ++ r)%string.
Proof.
  revert s. induction p as [|a p IH]; intros s.
  - cbn [strip_prefix]. change (EmptyString ++ r)%string with r.
    split; [by intros [= ->] | by intros ->].
  - rewrite str_app_cons. cbn [strip_prefix].
    destruct s as [|b s]; [split; [done | discriminate]|].
    destruct (Ascii.eqb_spec a b) as [-> | Hne].
    + rewrite IH. split; [by intros -> | by intros [= ->]].
    + split; [done | intros [= ? ?]; congruence].
Qed.

Lemma strip_prefix_app (p r : string) : strip_prefix p (p ++ r) = Some r.
Proof. by apply strip_prefix_iff. Qed.

Lemma find_sub_Some (p s a b : string) :
  find_sub p s = Some (a, b) -> s = (a ++ p ++ b)%string.
Proof.
  revert a b. induction s as [|c s IH]; intros a b H.
  - destruct p; cbn in H; [|done]. by inversion H.
  - cbn [find_sub] in H.
    destruct (strip_prefix p (String c s)) as [r|] eqn:Hp.
    + inversion H; subst. by apply strip_prefix_iff in Hp.
    + destruct (find_sub p s) as [[a' b']|]; [|done].
      inversion H; subst. rewrite str_app_cons. f_equal. by apply IH.
Qed.

Lemma find_sub_app (p a b : string) :
  exists a' b', find_sub p (a ++ p ++ b) = Some (a', b').
Proof.
  induction a as [|c a (a' & b' & IH)].
  - change (EmptyString ++ p ++ b)%string with (p ++ b)%string.
    assert (Hp : strip_prefix p (p ++ b) = Some b) by apply strip_prefix_app.
    destruct (p ++ b)%string; cbn [find_sub]; rewrite Hp; by eexists _, _.
  - rewrite str_app_cons. cbn [find_sub].
    destruct (strip_prefix p (String c (a ++ p ++ b))); [by eexists _, _|].
    rewrite IH. by eexists _, _.
Qed.

(** [contains] is the substring test. *)
Lemma contains_iff (p s : string) :
  contains p s = true <-> exists a b, s = (a ++ p ++ b)%string.
Proof.
  unfold contains. split.
  - destruct (find_sub p s) as [[a b]|] eqn:H; [|done].
    intros _. exists a, b. by apply find_sub_Some.
  - intros (a & b & ->). by destruct (find_sub_app p a b) as (a' & b' & ->).
Qed.

Lemma lower_app (a b : string) : lower (a ++ b) = (lower a ++ lower b)%string.
Proof.
  induction a as [|x a IH]; [done|].
  rewrite str_app_cons. cbn [lower]. by rewrite str_app_cons, IH.
Qed.

Lemma contains_lower (p s : string) :
  contains p s = true -> contains (lower p) (lower s) = true.
Proof.
  rewrite !contains_iff. intros (a & b & ->).
  exists (lower a), (lower b). by rewrite !lower_app.
Qed.

Lemma join_contains (sep : string) (l : list string) (x : string) :
  In x l -> exists a b, join sep l = (a ++ x ++ b)%string.
Proof.
  induction l as [|y l IH]; [done|].
  intros [-> | Hin].
  - destruct l as [|z l]; cbn [join].
    + exists EmptyString, EmptyString. by rewrite str_app_nil_r.
    + exists EmptyString. by eexists.
  - destruct (IH Hin) as (a & b & Hab).
    destruct l as [|z l]; [done|].
    cbn [join] in *. rewrite Hab.
    exists (y ++ sep ++ a)%string, b. by rewrite !str_app_assoc.
Qed.

Lemma find_sub_free (c : ascii) (p pre rest : string) :
  free_of c pre = true ->
  find_sub (String c p) (pre ++ String c p ++ rest)
  = Some (pre, rest).
Proof.
  intros Hfree. induction pre as [|a pre IH].
  - change (EmptyString ++ String c p ++ rest)%string
      with (String c (p ++ rest)).
    cbn [find_sub strip_prefix]. by rewrite Ascii.eqb_refl, strip_prefix_app.
  - cbn [free_of] in Hfree. apply andb_prop in Hfree as [Ha Hfree].
    apply negb_true_iff in Ha.
    rewrite str_app_cons.
    cbn [find_sub strip_prefix]. rewrite Ascii.eqb_sym, Ha.
    by rewrite (IH Hfree).
Qed.

(** ** Matched keywords *)



(** ** Reading the markup *)

Lemma str_length_app (a b : string) :
  String.length (a ++ b) = (String.length a + String.length b)%nat.
Proof.
  induction a as [|x a IH]; [done|].
  rewrite str_app_cons. cbn [String.length]. by rewrite IH.
Qed.

Lemma until_close_em_unfold (s : string) :
  until_close_em s
  = match strip_prefix "</em>" s with
    | Some rest => Some (EmptyString, rest)
    | None =>
        match s with
        | EmptyString => None
        | String c s' =>
            if Ascii.eqb c "010"%char then None
            else match until_close_em s' with
                 | Some (captured, rest) => Some (String c captured, rest)
                 | None => None
                 end
        end
    end.
Proof. by destruct s. Qed.

Lemma until_close_em_free (w post : string) :
  free_of "<" w = true -> free_of "010" w = true ->
  until_close_em (w ++ "</em>" ++ post) = Some (w, post).
Proof.
  induction w as [|a w IH]; intros Hlt Hnl.
  - change (EmptyString ++ "</em>" ++ post)%string with ("</em>" ++ post)%string.
    by rewrite until_close_em_unfold, strip_prefix_app.
  - cbn [free_of] in Hlt, Hnl.
    apply andb_prop in Hlt as [Ha Hlt]. apply andb_prop in Hnl as [Hb Hnl].
    apply negb_true_iff in Ha, Hb.
    rewrite str_app_cons, until_close_em_unfold.
    cbn [strip_prefix]. rewrite Ascii.eqb_sym, Ha, Hb.
    by rewrite (IH Hlt Hnl).
Qed.

Lemma findall_em_skip (c : ascii) (s : string) :
  Ascii.eqb c "<" = false -> findall_em (String c s) = findall_em s.
Proof.
  intros Hc. unfold findall_em. cbn [String.length findall_em_fuel strip_prefix].
  by rewrite Ascii.eqb_sym, Hc.
Qed.

Lemma findall_em_free (s : string) : free_of "<" s = true -> findall_em s = [].
Proof.
  induction s as [|c s IH]; [done|].
  cbn [free_of]. intros H. apply andb_prop in H as [Hc H].
  apply negb_true_iff in Hc. rewrite findall_em_skip by done. by apply IH.
Qed.

Lemma findall_em_match (w post : string) :
  free_of "<" w = true -> free_of "010" w = true ->
  findall_em ("<em>" ++ w ++ "</em>" ++ post) = w :: findall_em post.
Proof.
  intros Hlt Hnl. unfold findall_em at 1.
  assert (Hp : strip_prefix "<em>" ("<em>" ++ w ++ "</em>" ++ post)
               = Some (w ++ "</em>" ++ post)%string) by apply strip_prefix_app.
  assert (Hlen : String.length ("<em>" ++ w ++ "</em>" ++ post)
                 = S (3 + String.length w + 5 + String.length post)).
  { rewrite !str_length_app. simpl. lia. }
  rewrite Hlen.
  revert Hp. generalize ("<em>" ++ w ++ "</em>" ++ post)%string as s. intros s Hp.
  cbn [findall_em_fuel]. destruct s as [|c s]; [done|].
  rewrite Hp, (until_close_em_free w post Hlt Hnl).
  f_equal. apply findall_em_fuel_enough. lia.
Qed.

(** X15.  In a highlight fragment the terms are read off the [<em>] tags:
    text free of [<] holds none; and where a tagged word follows text free
    of [<], the word (free of [<] and of new lines) is the first term read,
    and the reading goes on behind its closing tag. *)
Theorem findall_em_reads_markup (pre w post : string) :
  free_of "<" pre = true ->
  free_of "<" w = true ->
  free_of "010" w = true ->
  findall_em pre = [] /\
  findall_em (pre ++ "<em>" ++ w ++ "</em>" ++ post) = w :: findall_em post.
Proof.
  intros Hpre Hw Hnl. split; [by apply findall_em_free|].
  induction pre as [|c pre IH]; [by apply findall_em_match|].
  cbn [free_of] in Hpre. apply andb_prop in Hpre as [Hc Hpre].
  apply negb_true_iff in Hc.
  rewrite str_app_cons, findall_em_skip by done. by apply IH.
Qed.

Lemma findall_em_reads_markup_witness :
  findall_em ("Primary " ++ "<em>" ++ "open angle" ++ "</em>" ++ " glaucoma")
  = "open angle" :: findall_em " glaucoma".
Proof.
  exact (proj2 (findall_em_reads_markup "Primary " "open angle" " glaucoma"
                  eq_refl eq_refl eq_refl)).
Defined.

(** X16.  [extract_matched_keywords] returns each term of the highlight
    once: its list has no duplicates, and a term is in it exactly when some
    fragment of some field holds it between [<em>] tags.  No highlight, no
    terms. *)
Theorem extract_matched_keywords_spec (highlight : list (string * list string)) :
  NoDup (extract_matched_keywords highlight) /\
  (forall x,
      In x (extract_matched_keywords highlight) <->
      exists field fragments fragment,
        In (field, fragments) highlight /\ In fragment fragments /\
        In x (findall_em fragment)) /\
  extract_matched_keywords [] = [].
Proof.
  split; [apply extract_matched_keywords_NoDup|].
  split; [|done].
  intros x. unfold extract_matched_keywords.
  rewrite <- list_elem_of_In, elem_of_elements, elem_of_list_to_set.
  rewrite list_elem_of_In, in_flat_map. split.
  - intros ([field fragments] & Hin & Hx). apply in_flat_map in Hx as (frag & Hf & Hx).
    by exists field, fragments, frag.
  - intros (field & fragments & frag & Hin & Hf & Hx).
    exists (field, fragments). split; [done|].
    apply in_flat_map. by exists frag.
Qed.

(** ** The JSON block of the LLM's answer *)



(** ** Query expansion *)

Section ExpansionFacts.
Import QueryExpansion.

Lemma not_in_spec (x : string) (l : list string) :
  not_in x l = true <-> ~ In x l.
Proof.
  unfold not_in. rewrite negb_true_iff, <- not_true_iff_false, existsb_exists.
  split; intros H Hx; apply H.
  - exists x. split; [done | apply String.eqb_refl].
  - destruct Hx as (y & Hy & Heq). apply String.eqb_eq in Heq. by subst.
Qed.

Lemma add_new_NoDup (acc : list string) (s : string) :
  List.NoDup acc -> List.NoDup (add_new acc s).
Proof.
  intros H. unfold add_new. destruct (not_in s acc) eqn:Hs; [|done].
  apply not_in_spec in Hs.
  apply NoDup_ListNoDup, NoDup_app. apply NoDup_ListNoDup in H.
  split; [done|]. split; [|apply NoDup_singleton].
  intros x Hx Hx'. apply list_elem_of_In in Hx.
  apply list_elem_of_singleton in Hx'. by subst.
Qed.

Lemma add_new_In (acc : list string) (s x : string) :
  In x (add_new acc s) <-> In x acc \/ x = s.
Proof.
  unfold add_new. destruct (not_in s acc) eqn:Hs.
  - rewrite in_app_iff. simpl. intuition.
  - apply not_true_iff_false in Hs. rewrite not_in_spec in Hs.
    split; [by left|]. intros [H | ->]; [done|].
    destruct (in_dec string_dec s acc); [done | contradiction].
Qed.

Lemma add_new_hd (acc : list string) (s : string) :
  acc <> [] -> hd_error (add_new acc s) = hd_error acc.
Proof.
  intros H. unfold add_new. destruct (not_in s acc); [|done]. by destruct acc.
Qed.

Lemma fold_add_new_NoDup (l acc : list string) :
  List.NoDup acc -> List.NoDup (fold_left add_new l acc).
Proof.
  revert acc. induction l as [|s l IH]; intros acc H; [done|].
  simpl. by apply IH, add_new_NoDup.
Qed.

Lemma fold_add_new_In (l acc : list string) (x : string) :
  In x (fold_left add_new l acc) <-> In x acc \/ In x l.
Proof.
  revert acc. induction l as [|s l IH]; intros acc; simpl; [intuition|].
  rewrite IH, add_new_In. intuition.
Qed.

Lemma fold_add_new_hd (l acc : list string) :
  acc <> [] -> hd_error (fold_left add_new l acc) = hd_error acc.
Proof.
  revert acc. induction l as [|s l IH]; intros acc H; [done|].
  simpl. rewrite IH, add_new_hd; [done..|].
  unfold add_new. destruct (not_in s acc); [by destruct acc | done].
Qed.

Lemma append_term_fold (acc : list string) (v : json) :
  append_term acc v = fold_left add_new (term_strings v) acc.
Proof.
  unfold append_term, term_strings. destruct v as [| | |s| |]; try done.
  unfold add_new. by destruct (str_truthy s).
Qed.

Lemma append_info_fold (acc : list string) (info : json) :
  append_info acc info = fold_left add_new (info_strings info) acc.
Proof.
  unfold append_info, info_strings. destruct info as [| | |s| |fields]; try done.
  cbn [fold_left flat_map]. rewrite app_nil_r, !fold_left_app.
  by rewrite !append_term_fold.
Qed.

Lemma fold_append_info (infos : list json) (acc : list string) :
  fold_left append_info infos acc
  = fold_left add_new (flat_map info_strings infos) acc.
Proof.
  revert acc. induction infos as [|info infos IH]; intros acc; [done|].
  cbn [fold_left flat_map]. by rewrite fold_left_app, IH, append_info_fold.
Qed.

Lemma terms_of_data_dedup (fields : list (string * json)) :
  terms_of_data fields = dedup_first (candidate_strings fields).
Proof.
  unfold terms_of_data, dedup_first, candidate_strings.
  rewrite !fold_left_app, !append_term_fold.
  destruct (get_or fields "additional_info" (JArr [])); try done.
  by rewrite fold_append_info.
Qed.

(** X18.  Whatever text it is given and whatever [json.loads] makes of it,
    [extract_terms_from_rewrite] returns at least one term and no term
    twice. *)
Theorem extract_terms_nonempty_nodup (E : Env) (rewritten_query : string) :
  extract_terms_from_rewrite E rewritten_query <> [] /\
  List.NoDup (extract_terms_from_rewrite E rewritten_query).
Proof.
  assert (Hone : forall s : string, [s] <> [] /\ List.NoDup [s]).
  { intros s. split; [done|]. constructor; [by intros []|constructor]. }
  unfold extract_terms_from_rewrite.
  destruct (find_index "<json>" rewritten_query); [|apply Hone].
  destruct (find_index "</json>" rewritten_query); [|apply Hone].
  destruct (json_loads E _) as [[| | | | |fields]|]; try apply Hone.
  pose proof (fold_add_new_NoDup (candidate_strings fields) [] (List.NoDup_nil _)) as Hnd.
  rewrite terms_of_data_dedup. unfold dedup_first.
  destruct (fold_left add_new (candidate_strings fields) []); [apply Hone|].
  by split.
Qed.



End ExpansionFacts.

Section RewriteFacts.
Import QueryExpansion.

Lemma free_of_app (c : ascii) (a b : string) :
  free_of c (a ++ b) = free_of c a && free_of c b.
Proof.
  induction a as [|x a IH]; [done|].
  rewrite str_app_cons. cbn [free_of]. by rewrite IH, andb_assoc.
Qed.

Lemma find_sub_none_free (c : ascii) (p s : string) :
  free_of c s = true -> find_sub (String c p) s = None.
Proof.
  induction s as [|a s IH]; [done|].
  cbn [free_of]. intros H. apply andb_prop in H as [Ha H].
  apply negb_true_iff in Ha.
  cbn [find_sub strip_prefix]. rewrite Ascii.eqb_sym, Ha. by rewrite (IH H).
Qed.

Lemma find_sub_prefix (p r : string) :
  find_sub p (p ++ r) = Some (EmptyString, r).
Proof.
  pose proof (strip_prefix_app p r) as Hp.
  destruct (p ++ r)%string; cbn [find_sub]; by rewrite Hp.
Qed.

Lemma find_sub_cons (p : string) (c : ascii) (s : string) :
  find_sub p (String c s)
  = match strip_prefix p (String c s) with
    | Some rest => Some (EmptyString, rest)
    | None =>
        match find_sub p s with
        | Some (before, after) => Some (String c before, after)
        | None => None
        end
    end.
Proof. reflexivity. Qed.

Lemma up_to_last_snoc (c : ascii) (s : string) :
  up_to_last c (s ++ String c EmptyString) = Some (s ++ String c EmptyString)%string.
Proof.
  induction s as [|a s IH].
  - change (EmptyString ++ String c EmptyString)%string with (String c EmptyString).
    cbn [up_to_last]. by rewrite Ascii.eqb_refl.
  - rewrite str_app_cons. cbn [up_to_last]. by rewrite IH.
Qed.

Lemma substring_middle (a b c : string) :
  String.substring (String.length a) (String.length b) (a ++ b ++ c) = b.
Proof.
  induction a as [|x a IH].
  - change (EmptyString ++ b ++ c)%string with (b ++ c)%string.
    cbn [String.length]. induction b as [|y b IHb].
    + by destruct c.
    + rewrite str_app_cons. cbn [String.length String.substring]. by rewrite IHb.
  - rewrite str_app_cons. cbn [String.length String.substring]. exact IH.
Qed.

Lemma rstrip_snoc (c : ascii) (s : string) :
  is_space c = false ->
  rstrip (s ++ String c EmptyString) = (s ++ String c EmptyString)%string.
Proof.
  intros Hc. induction s as [|a s IH].
  - change (EmptyString ++ String c EmptyString)%string with (String c EmptyString).
    cbn [rstrip]. by rewrite Hc.
  - rewrite str_app_cons. cbn [rstrip]. rewrite IH.
    by destruct s.
Qed.

Lemma strip_braces (body : string) :
  strip ("{" ++ body ++ "}") = ("{" ++ body ++ "}")%string.
Proof.
  unfold strip. change ("{" ++ body ++ "}")%string with (String "{" (body ++ "}")).
  cbn [lstrip]. change (is_space "{") with false. cbn iota.
  change (String "{" (body ++ "}")) with (String "{" body ++ "}")%string.
  by apply rstrip_snoc.
Qed.

Lemma rewrite_query_skips (E : Env) (chat : string -> exc string) (query : string) :
  str_truthy query = false \/ (py_len (strip query) < 2)%nat \/
  openai_api_key E = EmptyString \/
  (exists msg, chat (query_rewrite_prompt query) = Raise msg) ->
  rewrite_query E chat query = query.
Proof.
  intros H. unfold rewrite_query.
  destruct H as [-> | [Hlen | [-> | [msg ->]]]]; [done| | |].
  - apply Nat.ltb_lt in Hlen. rewrite Hlen. by rewrite orb_true_r.
  - by destruct (negb (str_truthy query) || _).
  - destruct (negb (str_truthy query) || _); [done|].
    by destruct (negb (str_truthy (openai_api_key E))).
Qed.

(** X20.  [rewrite_query] returns either the query it was given or a text
    that holds a [<json>] tag; it returns the query, without consulting the
    model, when the query is empty or shorter than two characters once
    stripped, or when no OpenAI key is configured, and it returns the query
    when the request to the model raises. *)
Theorem rewrite_query_result (E : Env) (chat : string -> exc string) (query : string) :
  (rewrite_query E chat query = query \/
   contains "<json>" (rewrite_query E chat query) = true) /\
  (str_truthy query = false \/ (py_len (strip query) < 2)%nat \/
   openai_api_key E = EmptyString ->
   rewrite_query E chat query = query) /\
  (forall msg, chat (query_rewrite_prompt query) = Raise msg ->
               rewrite_query E chat query = query).
Proof.
  split; [|split].
  - unfold rewrite_query.
    destruct (negb (str_truthy query) || (py_len (strip query) <? 2)%nat); [by left|].
    destruct (negb (str_truthy (openai_api_key E))); [by left|].
    destruct (chat (query_rewrite_prompt query)) as [content|]; [|by left].
    cbn [exc_bind].
    destruct (contains "<json>" (strip content)) eqn:Hc; cbn [negb];
      [by right|].
    destruct (brace_span (strip content)) as [json_content|]; [|by left].
    destruct (json_loads E json_content); [|by left].
    right. cbn [try_except]. apply contains_iff.
    exists EmptyString. by eexists.
  - intros H. apply rewrite_query_skips. tauto.
  - intros msg Hmsg. apply rewrite_query_skips. by right; right; right; exists msg.
Qed.





End RewriteFacts.

(** ** The three descriptors side by side *)

(** X23.  The builders agree with one another.  The lexical half of the
    hybrid descriptor is the query of the keyword descriptor, with the same
    pagination and highlighting, and its other half is the neighbour search
    with [k = pageSize]; the vector descriptor excludes, for [n] terms, the
    [3 * n] phrase matches of the terms on title, keywords and abstract, and
    asks for no highlighting; the query of supplementation excludes the
    seen ids first and then exactly what the vector descriptor excludes,
    and is not paginated. *)
Theorem query_builders_agree (terms : list string) (emb : list Q) (pg page_size : Z)
    (seen_ids : gset string) (remaining : Z) :
  let k := build_keyword_search_query terms pg page_size in
  let h := build_hybrid_search_query terms emb pg page_size in
  let v := build_vector_search_query emb terms pg page_size in
  let s := supplement_query emb terms seen_ids remaining in
  body_query h
  = q_hybrid [body_query k; q_knn {| knn_vector := emb; knn_k := page_size |}] /\
  body_from h = body_from k /\ body_size h = body_size k /\
  body_highlight h = body_highlight k /\
  knn_of (body_query v) = Some {| knn_vector := emb; knn_k := page_size |} /\
  body_from v = Some ((pg - 1) * page_size)%Z /\ body_size v = page_size /\
  body_highlight v = None /\
  length (must_not_clauses (body_query v)) = (3 * length terms)%nat /\
  (forall c, In c (must_not_clauses (body_query v)) <->
             exists t, In t terms /\
                       (c = match_phrase "title" t \/ c = match_phrase "keywords" t \/
                        c = match_phrase "abstract" t)) /\
  must_not_clauses (body_query s)
  = terms_id (elements seen_ids) :: must_not_clauses (body_query v) /\
  knn_of (body_query s) = Some {| knn_vector := emb; knn_k := remaining |} /\
  body_from s = None /\ body_size s = remaining.
Proof.
  simpl. repeat (split; [done|]).
  split; [by apply flat_map_length_3|].
  split; [|done].
  intros c. rewrite in_flat_map. split.
  - intros (t & Ht & Hc). exists t. split; [done|].
    simpl in Hc. destruct Hc as [ <- | [ <- | [ <- | [] ] ] ]; auto.
  - intros (t & Ht & Hc). exists t. split; [done|].
    simpl. destruct Hc as [ -> | [ -> | -> ] ]; auto.
Qed.

(** ** Batched embedding *)

Section EmbeddingFacts.
Import Embedding.

Lemma mapM_Ok_map {A B : Type} (g : A -> exc B) (h : A -> B) (l : list A) :
  (forall x, In x l -> g x = Ok (h x)) -> mapM g l = Ok (map h l).
Proof.
  induction l as [|x l IH]; intros H; [done|].
  cbn [mapM map]. rewrite (H x) by (by left). cbn [exc_bind].
  rewrite IH; [done|]. intros y Hy. apply H. by right.
Qed.

Lemma batches_concat_upto (b m : nat) (texts : list string) :
  (length texts <= m * b)%nat ->
  concat (map (fun k => take b (drop (k * b) texts)) (seq 0 m)) = texts.
Proof.
  revert texts. induction m as [|m IH]; intros texts Hlen.
  - destruct texts; [done | simpl in Hlen; lia].
  - cbn [seq map concat]. rewrite <- seq_shift, map_map.
    change (0 * b)%nat with 0%nat. rewrite drop_0.
    transitivity (take b texts ++ drop b texts)%list; [|apply take_drop].
    f_equal.
    transitivity (concat (map (fun k => take b (drop (k * b) (drop b texts))) (seq 0 m)));
      [|apply IH; rewrite length_drop; lia].
    f_equal. apply map_ext. intros k. rewrite drop_drop.
    replace (b + k * b)%nat with (S k * b)%nat by lia. done.
Qed.

Lemma batch_count_covers (n b : nat) :
  (0 < b)%nat -> (n <= (n + b - 1) / b * b)%nat.
Proof.
  intros Hb. pose proof (Nat.div_mod_eq (n + b - 1) b) as Hd.
  pose proof (Nat.mod_upper_bound (n + b - 1) b ltac:(lia)) as Hm. nia.
Qed.

Lemma batch_start_inside (n b k : nat) :
  (0 < b)%nat -> (k < (n + b - 1) / b)%nat -> (k * b < n)%nat.
Proof.
  intros Hb Hk. pose proof (Nat.div_mod_eq (n + b - 1) b) as Hd. nia.
Qed.

Lemma batches_concat (texts : list string) (b : nat) :
  (0 < b)%nat ->
  concat (map (batch_at texts b) (batch_starts (length texts) b)) = texts.
Proof.
  intros Hb. unfold batch_starts, batch_at. rewrite map_map.
  apply batches_concat_upto. by apply batch_count_covers.
Qed.

(** X24.  The batches [get_embeddings] sends are the texts cut into runs of
    [batch_size]: put end to end they are the texts, each once and in
    order; no batch is empty and none is longer than [batch_size]; and
    there are [ceil(n / batch_size)] of them. *)
Theorem embedding_batches_partition (texts : list string) (b : nat) :
  (0 < b)%nat ->
  let batches := map (batch_at texts b) (batch_starts (length texts) b) in
  concat batches = texts /\
  Forall (fun batch => (0 < length batch <= b)%nat) batches /\
  length batches = ((length texts + b - 1) / b)%nat.
Proof.
  intros Hb. cbn zeta. split; [by apply batches_concat|].
  unfold batch_starts, batch_at. rewrite map_map.
  split.
  - apply Forall_forall. intros batch Hin.
    apply list_elem_of_In, in_map_iff in Hin as (k & <- & Hk).
    apply in_seq in Hk.
    pose proof (batch_start_inside (length texts) b k Hb ltac:(lia)) as Hin.
    rewrite length_take, length_drop. lia.
  - by rewrite length_map, length_seq.
Qed.

Lemma embedding_batches_partition_witness :
  concat (map (batch_at ["a"; "b"; "c"; "d"; "e"] 2) (batch_starts 5 2))
  = ["a"; "b"; "c"; "d"; "e"].
Proof.
  exact (proj1 (embedding_batches_partition ["a"; "b"; "c"; "d"; "e"] 2
                  ltac:(lia))).
Defined.



(** X26.  [get_embeddings] gives all or nothing.  With no texts it returns
    no rows and sends nothing; a batch size of zero raises; and when the
    endpoint fails on a batch, or answers it with a body without [data],
    the whole call raises: no partial list of embeddings comes back. *)
Theorem get_embeddings_all_or_nothing (endpoint : list string -> exc json)
    (texts : list string) (batch_size : Z) :
  (batch_size <> 0%Z -> get_embeddings endpoint [] batch_size = Ok []) /\
  (exists msg, get_embeddings endpoint texts 0 = Raise msg) /\
  ((0 < batch_size)%Z ->
   (exists batch, In batch (map (batch_at texts (Z.to_nat batch_size))
                                (batch_starts (length texts) (Z.to_nat batch_size))) /\
                  exists msg, embed_batch endpoint batch = Raise msg) ->
   exists msg, get_embeddings endpoint texts batch_size = Raise msg).
Proof.
  split; [|split].
  - intros Hne. unfold get_embeddings.
    destruct (Z.eqb_spec batch_size 0) as [?|_]; [done|].
    destruct (Z.ltb_spec batch_size 0) as [?|?]; [done|].
    unfold batch_starts. cbn [length].
    replace ((0 + Z.to_nat batch_size - 1) / Z.to_nat batch_size)%nat with 0%nat; [done|].
    symmetry. apply Nat.div_small. lia.
  - by eexists.
  - intros Hb (batch & Hin & msg & Hraise). unfold get_embeddings.
    destruct (Z.eqb_spec batch_size 0) as [?|_]; [lia|].
    destruct (Z.ltb_spec batch_size 0) as [?|_]; [lia|].
    apply in_map_iff in Hin as (i & <- & Hi).
    revert Hi. generalize (batch_starts (length texts) (Z.to_nat batch_size)) as starts.
    induction starts as [|j starts IH]; [done|].
    intros [-> | Hi].
    + cbn [mapM]. rewrite Hraise. by eexists.
    + cbn [mapM].
      destruct (embed_batch endpoint (batch_at texts (Z.to_nat batch_size) j));
        cbn [exc_bind]; [|by eexists].
      destruct (IH Hi) as [msg' Hmsg'].
      destruct (mapM _ starts); cbn [exc_bind] in *; [done | by eexists].
Qed.

End EmbeddingFacts.

(** ** Serialising results *)

Section SerializeFacts.
Import S3Cache.

Lemma map_JStr_inj (l l' : list string) : map JStr l = map JStr l' -> l = l'.
Proof.
  revert l'. induction l as [|x l IH]; intros [|y l'] H; try done.
  inversion H; subst. f_equal. by apply IH.
Qed.

Lemma serialize_normalize (r : SearchResult) :
  serialize_result (normalize r) = serialize_result r.
Proof. done. Qed.

Lemma serialize_result_inj (r r' : SearchResult) :
  serialize_result r = serialize_result r' -> normalize r = normalize r'.
Proof.
  unfold serialize_result, normalize. intros H.
  inversion H as [[Hid Ht Hk Ha Hs Hsrc Hm Hr]].
  apply map_JStr_inj in Hk, Hm. by rewrite Hid, Ht, Hk, Ha, Hs, Hsrc, Hm, Hr.
Qed.

(** X27.  [_serialize_search_results] keeps the results, their order and
    every field, with one loss: a missing source, relevance reason or list
    of matched keywords is written as the empty one, so that two lists of
    results serialise alike exactly when they agree up to that.  No field of
    a serialised result is null. *)
Theorem serialize_search_results_spec (results results' : list SearchResult) :
  length (_serialize_search_results results) = length results /\
  (_serialize_search_results results = _serialize_search_results results' <->
   map normalize results = map normalize results') /\
  Forall (fun d => exists fields,
            d = JObj fields /\
            forall key, In key ["id"; "title"; "keywords"; "abstract"; "score";
                                "source"; "matched_keywords"; "relevance_reason"] ->
                        exists v, assoc key fields = Some v /\ v <> JNull)
         (_serialize_search_results results).
Proof.
  unfold _serialize_search_results. split; [apply length_map|]. split.
  - split.
    + revert results'. induction results as [|r rs IH]; intros [|r' rs'] H; try done.
      cbn [map] in *.
      assert (Hr : serialize_result r = serialize_result r') by congruence.
      assert (Hrs : map serialize_result rs = map serialize_result rs') by congruence.
      f_equal; [|by apply IH].
      by apply serialize_result_inj.
    + revert results'. induction results as [|r rs IH]; intros [|r' rs'] H; try done.
      cbn [map] in *.
      assert (Hr : normalize r = normalize r') by congruence.
      assert (Hrs : map normalize rs = map normalize rs') by congruence.
      f_equal; [|by apply IH].
      by rewrite <- (serialize_normalize r), <- (serialize_normalize r'), Hr.
  - apply Forall_forall. intros d Hd.
    apply list_elem_of_In, in_map_iff in Hd as (r & <- & _).
    eexists. split; [reflexivity|].
    intros key Hkey. simpl in Hkey.
    repeat (destruct Hkey as [<- | Hkey]; [by eexists|]). done.
Qed.

End SerializeFacts.
